(** * Sales forecasting pipeline (main.py): a shallow embedding

    The pipeline of [main.py] is modelled over lists of rows:
    [load_sales_data] (normalisation), [filter_by_season],
    [forecast_sales] (aggregation to a monthly series, model selection,
    forecast) and the forecast axis of [plot_forecasts].

    Conventions.
    - A pandas DataFrame is a list of rows, in row order.
    - A missing number (NaN) and a missing timestamp (NaT) are [None].
    - Quantities are integers; the values a fitted model predicts are kept
      abstract, as is the fitting itself (statsmodels).
    - A raised Python exception is the left injection of a sum. *)

From Stdlib Require Import ZArith Lia Ascii String.
From stdpp Require Import base option list list_numbers strings gmap pretty.

Local Open Scope Z_scope.

(* ===================================================================== *)
(** * Calendar: timestamps at day resolution                              *)
(* ===================================================================== *)

(** The month of a timestamp; a [datetime] only ever holds one of twelve. *)
Inductive Month :=
  Jan | Feb | Mar | Apr | May | Jun | Jul | Aug | Sep | Oct | Nov | Dec.

#[global] Instance Month_eq_dec : EqDecision Month.
Proof. solve_decision. Defined.

Record Timestamp := mkTs { ts_year : Z; ts_month : Month; ts_day : Z }.

#[global] Instance Timestamp_eq_dec : EqDecision Timestamp.
Proof. solve_decision. Defined.

(** Zero-based position of a month in the year. *)
Definition month_index (m : Month) : Z :=
  match m with
  | Jan => 0 | Feb => 1 | Mar => 2 | Apr => 3 | May => 4 | Jun => 5
  | Jul => 6 | Aug => 7 | Sep => 8 | Oct => 9 | Nov => 10 | Dec => 11
  end.

Definition month_of_index (i : Z) : Month :=
  match i with
  | 0 => Jan | 1 => Feb | 2 => Mar | 3 => Apr | 4 => May | 5 => Jun
  | 6 => Jul | 7 => Aug | 8 => Sep | 9 => Oct | 10 => Nov | _ => Dec
  end.

(** [strftime("%b")]: the abbreviated month name. *)
Definition strftime_b (m : Month) : string :=
  match m with
  | Jan => "Jan" | Feb => "Feb" | Mar => "Mar" | Apr => "Apr"
  | May => "May" | Jun => "Jun" | Jul => "Jul" | Aug => "Aug"
  | Sep => "Sep" | Oct => "Oct" | Nov => "Nov" | Dec => "Dec"
  end.

Definition all_months : list Month :=
  [Jan; Feb; Mar; Apr; May; Jun; Jul; Aug; Sep; Oct; Nov; Dec].

Definition is_leap (y : Z) : bool :=
  ((y mod 4 =? 0) && negb (y mod 100 =? 0)) || (y mod 400 =? 0).

Definition days_in_month (y : Z) (m : Month) : Z :=
  match m with
  | Feb => if is_leap y then 29 else 28
  | Apr | Jun | Sep | Nov => 30
  | _ => 31
  end.

(** Months counted from year 0: the calendar month of a timestamp as one
    number, so that the month after [k] is [k + 1]. *)
Definition month_ordinal (t : Timestamp) : Z :=
  ts_year t * 12 + month_index (ts_month t).

(** The last day of the month with ordinal [k]: the label that monthly
    ("M", month-end) resampling and [date_range(freq="M")] give a month. *)
Definition month_end (k : Z) : Timestamp :=
  let y := k / 12 in
  let m := month_of_index (k mod 12) in
  mkTs y m (days_in_month y m).

(** The calendar month that follows the month of [t]. *)
Definition following_month (t : Timestamp) : Z * Month :=
  match ts_month t with
  | Dec => (ts_year t + 1, Jan)
  | m => (ts_year t, month_of_index (month_index m + 1))
  end.

(** [b] lies in the calendar month right after the month of [a]. *)
Definition next_month (a b : Timestamp) : Prop :=
  (ts_year b, ts_month b) = following_month a.

#[global] Instance next_month_dec a b : Decision (next_month a b).
Proof. unfold next_month. apply _. Defined.

(** A sequence of timestamps in which each entry is one calendar month
    after the one before it, the first one being one month after [prev]. *)
Fixpoint monthly_from (prev : Timestamp) (l : list Timestamp) : Prop :=
  match l with
  | [] => True
  | t :: l' => next_month prev t ∧ monthly_from t l'
  end.

(** Adjacent entries differ by exactly one calendar month. *)
Definition consecutive_months (l : list Timestamp) : Prop :=
  match l with
  | [] => True
  | t :: l' => monthly_from t l'
  end.

(** Same calendar month; and the order of calendar months. *)
Definition same_month (a b : Timestamp) : Prop :=
  ts_year a = ts_year b ∧ ts_month a = ts_month b.

Definition month_le (a b : Timestamp) : Prop :=
  ts_year a < ts_year b
  ∨ (ts_year a = ts_year b
     ∧ month_index (ts_month a) ≤ month_index (ts_month b)).

Definition is_month_end (t : Timestamp) : Prop :=
  ts_day t = days_in_month (ts_year t) (ts_month t).

(** [t + pd.DateOffset(months=1)]: one month later, the day clipped to the
    length of the target month. *)
Definition add_DateOffset_month (t : Timestamp) : Timestamp :=
  let '(y, m) := following_month t in
  mkTs y m (Z.min (ts_day t) (days_in_month y m)).

(** [pd.date_range(start, periods, freq="M")]: [periods] month ends, the
    first being the first month end on or after [start]. *)
Definition date_range_M (start : Timestamp) (periods : nat) : list Timestamp :=
  (λ i : nat, month_end (month_ordinal start + Z.of_nat i)) <$> seq 0 periods.

(* ===================================================================== *)
(** * Tables                                                              *)
(* ===================================================================== *)

(** A row of the table after [load_sales_data]. *)
Record Row := mkRow {
  PRODUCT_CODE : Z;
  PRODUCT_DESCRIPTION : string;
  MONTH : option Timestamp;     (* NaT is [None] *)
  YEAR : option Z;              (* NaN is [None] *)
  QUANTITY : option Z;          (* NaN is [None] *)
}.

#[global] Instance Row_eq_dec : EqDecision Row.
Proof. solve_decision. Defined.

Abbreviation DataFrame := (list Row).

(** Exceptions the pipeline can raise. *)
Inductive exn :=
  | KeyError (key : string)       (* a dict lookup with an absent key *)
  | ValueError (what : string)    (* [astype(int)] on a non-numeric code *)
  | AttributeError (what : string) (* an operation a missing timestamp does
                                      not have: a resample over missing
                                      timestamps only *)
  | IndexError                    (* [index[-1]] of an empty index *)
  | FitError (what : string).     (* raised by the fit of the smoothing model *)

#[global] Instance exn_eq_dec : EqDecision exn.
Proof. solve_decision. Defined.

(* ===================================================================== *)
(** * Season filter                                                       *)
(* ===================================================================== *)

Definition SEASON_MONTHS : gmap string (list string) :=
  list_to_map
    [ ("Winter", ["Dec"; "Jan"; "Feb"]);
      ("Spring", ["Mar"; "Apr"; "May"]);
      ("Summer", ["Jun"; "Jul"; "Aug"]);
      ("Autumn", ["Sep"; "Oct"; "Nov"]) ].

(** The mask [df["MONTH"].dt.strftime("%b").isin(months)] at one row: the
    abbreviation of a missing timestamp is missing, and is in no list. *)
Definition month_isin (months : list string) (r : Row) : Prop :=
  match MONTH r with
  | Some t => strftime_b (ts_month t) ∈ months
  | None => False
  end.

#[global] Instance month_isin_dec months r : Decision (month_isin months r).
Proof. unfold month_isin. destruct (MONTH r); apply _. Defined.

Definition filter_by_season (df : DataFrame) (season : string) : exn + DataFrame :=
  if decide (season = "All") then inr df
  else
    match SEASON_MONTHS !! season with
    | None => inl (KeyError season)
    | Some months => inr (filter (month_isin months) df)
    end.

(** The season names the interface offers. *)
Definition season_options : list string :=
  ["All"; "Winter"; "Spring"; "Summer"; "Autumn"].

(* ===================================================================== *)
(** * Normaliser: [load_sales_data]                                       *)
(* ===================================================================== *)

(** A row of the sheet as read: every cell still raw.  The code and month
    cells are texts, as [read_excel] gives them for a text column; a sheet
    whose code column is read as numbers makes the [.str] accessor of line
    25 raise before anything else, and is not a value of this type. *)
Record RawRow := mkRaw {
  raw_CODE : string;
  raw_DESCRIPTION : string;
  raw_MONTH : string;
  raw_QUANTITY : option Z;      (* an empty cell is [None] *)
}.

(** The two pandas text operations whose details no property below depends
    on: the regular-expression clean-up of a description followed by
    [lower], and the conversion [astype(int)] of a text, which is Python's
    [int] followed by the storage as a 64-bit integer ([None] where it
    raises). *)
Class TextOps := {
  clean_description : string → string;
  parse_int : string → option Z;
}.

(** [.str.replace("-", "")] *)
Fixpoint remove_hyphens (s : string) : string :=
  match s with
  | EmptyString => EmptyString
  | String c s' =>
      if decide (c = "-"%char) then remove_hyphens s'
      else String c (remove_hyphens s')
  end.

Definition ascii_lower (c : ascii) : ascii :=
  let n := Ascii.N_of_ascii c in
  if ((65 <=? n) && (n <=? 90))%N then Ascii.ascii_of_N (n + 32) else c.

Fixpoint str_lower (s : string) : string :=
  match s with
  | EmptyString => EmptyString
  | String c s' => String (ascii_lower c) (str_lower s')
  end.

(** [strptime] with format ["%b-%d"] on a text that ends in the appended
    ["-01"]: the month abbreviation is matched without regard to case, the
    year of a format without a year field is 1900. *)
Definition strptime_b_d (text : string) : option Timestamp :=
  if decide (String.substring 3 (String.length text - 3) text = "-01") then
    m ← list_find (λ m, str_lower (strftime_b m)
                        = str_lower (String.substring 0 3 text)) all_months;
    Some (mkTs 1900 (snd m) 1)
  else None.

(** [pd.to_datetime(MONTH.str[:3] + "-01", format="%b-%d", errors="coerce")]
    at one cell. *)
Definition parse_month (raw : string) : option Timestamp :=
  strptime_b_d (String.substring 0 3 raw +:+ "-01").

(** [pd.to_datetime] of a column that already holds timestamps. *)
Definition to_datetime (col : list (option Timestamp)) : list (option Timestamp) :=
  col.

(** [.dt.year] of a column. *)
Definition dt_year (col : list (option Timestamp)) : list (option Z) :=
  (λ t : option Timestamp, ts_year <$> t) <$> col.

(** [Series.min()]: missing values are skipped; the minimum of nothing is
    missing. *)
Fixpoint series_min (col : list (option Z)) : option Z :=
  match col with
  | [] => None
  | None :: col' => series_min col'
  | Some y :: col' =>
      match series_min col' with
      | None => Some y
      | Some y' => Some (Z.min y y')
      end
  end.

(** [series.min() < bound]; a comparison with a missing value is false. *)
Definition min_lt (col : list (option Z)) (bound : Z) : bool :=
  match series_min col with
  | Some y => bool_decide (y < bound)
  | None => false
  end.

Definition set_YEAR (r : Row) (y : option Z) : Row :=
  mkRow (PRODUCT_CODE r) (PRODUCT_DESCRIPTION r) (MONTH r) y (QUANTITY r).

Definition set_QUANTITY (r : Row) (q : option Z) : Row :=
  mkRow (PRODUCT_CODE r) (PRODUCT_DESCRIPTION r) (MONTH r) (YEAR r) q.

(** [sales[col] = values] for the two columns assigned after the parse. *)
Definition assign_YEAR (sales : DataFrame) (col : list (option Z)) : DataFrame :=
  zip_with set_YEAR sales col.

Definition assign_QUANTITY (sales : DataFrame) (col : list (option Z)) : DataFrame :=
  zip_with set_QUANTITY sales col.

(** Lines 33 to 37: the YEAR column and its correction. *)
Definition year_step (sales : DataFrame) : DataFrame :=
  let sales := assign_YEAR sales (dt_year (MONTH <$> sales)) in
  if min_lt (YEAR <$> sales) 1900 then
    assign_YEAR sales (dt_year (to_datetime (MONTH <$> sales)))
  else sales.

(** [np.where(q < 0, 0, q)] at one cell: a comparison with NaN is false, so
    a missing quantity is passed through. *)
Definition np_where_negative (q : option Z) : option Z :=
  match q with
  | Some v => if bool_decide (v < 0) then Some 0 else Some v
  | None => None
  end.

(** Line 40. *)
Definition quantity_step (sales : DataFrame) : DataFrame :=
  assign_QUANTITY sales (np_where_negative <$> (QUANTITY <$> sales)).

(** Lines 23 to 32 at one row; [astype(int)] raises on a code that is not
    a number. *)
Definition parse_row `{TextOps} (r : RawRow) : exn + Row :=
  match parse_int (remove_hyphens (raw_CODE r)) with
  | None => inl (ValueError (raw_CODE r))
  | Some code =>
      inr (mkRow code (clean_description (raw_DESCRIPTION r))
                 (parse_month (raw_MONTH r)) None (raw_QUANTITY r))
  end.

Fixpoint parse_rows `{TextOps} (sales : list RawRow) : exn + DataFrame :=
  match sales with
  | [] => inr []
  | r :: sales' =>
      match parse_row r with
      | inl e => inl e
      | inr row =>
          match parse_rows sales' with
          | inl e => inl e
          | inr rows => inr (row :: rows)
          end
      end
  end.

Definition load_sales_data `{TextOps} (sales : list RawRow) : exn + DataFrame :=
  match parse_rows sales with
  | inl e => inl e
  | inr parsed => inr (quantity_step (year_step parsed))
  end.

(* ===================================================================== *)
(** * Series aggregation: [resample("M").sum()]                           *)
(* ===================================================================== *)

(** A monthly series: the month-end index with the QUANTITY column. *)
Abbreviation Series := (list (Timestamp * Z)).

(** The month ordinal of a row; rows with a missing timestamp have none. *)
Definition row_month (r : Row) : option Z := month_ordinal <$> MONTH r.

(** Months of the rows that have a timestamp. *)
Definition observed_months (rows : DataFrame) : list Z := omap row_month rows.

Definition in_month (k : Z) (r : Row) : Prop := row_month r = Some k.

#[global] Instance in_month_dec k r : Decision (in_month k r).
Proof. unfold in_month. apply _. Defined.

(** [sum()] of a column: missing values are skipped, the sum of nothing
    is 0.  The sum is the exact one; the column arithmetic of the program
    agrees with it as long as it is exact (see [quantities_exact]). *)
Definition sum_skipna (col : list (option Z)) : Z :=
  foldr (λ q acc, default 0 q + acc) 0 col.

(** The quantities of the rows are small enough for the column arithmetic
    to be exact: their magnitudes add up to less than 2^53, so that no
    64-bit integer sum wraps around and no floating-point sum rounds. *)
Definition quantities_exact (rows : DataFrame) : Prop :=
  foldr (λ r acc, Z.abs (default 0 (QUANTITY r)) + acc) 0 rows < 2 ^ 53.

Definition min_month (k : Z) (ks : list Z) : Z := foldr Z.min k ks.
Definition max_month (k : Z) (ks : list Z) : Z := foldr Z.max k ks.

(** The bin of the month with ordinal [b]: its month-end label and the sum
    of the quantities of the rows of that month. *)
Definition bin (rows : DataFrame) (b : Z) : Timestamp * Z :=
  (month_end b, sum_skipna (QUANTITY <$> filter (in_month b) rows)).

(** One bin per calendar month from the first to the last observed month;
    rows without a timestamp fall in no bin.  A frame without rows gives an
    empty series; one whose timestamps are all missing has no range to
    bin. *)
Definition resample_M_sum (rows : DataFrame) : exn + Series :=
  match rows with
  | [] => inr []
  | _ =>
      match observed_months rows with
      | [] => inl (AttributeError "NaT")
      | k :: ks =>
          let lo := min_month k ks in
          let hi := max_month k ks in
          inr (bin rows <$> seqZ lo (hi - lo + 1))
      end
  end.

(** The row has a timestamp whose month is one of [ks]. *)
Definition has_month_in (ks : list Z) (r : Row) : Prop :=
  match row_month r with
  | Some b => b ∈ ks
  | None => False
  end.

#[global] Instance has_month_in_dec ks r : Decision (has_month_in ks r).
Proof. unfold has_month_in. destruct (row_month r); apply _. Defined.

(** The row has a timestamp (its MONTH is not NaT). *)
Definition has_month (r : Row) : Prop := is_Some (MONTH r).

#[global] Instance has_month_dec r : Decision (has_month r).
Proof. unfold has_month. apply _. Defined.

(** Some row of the frame falls in the calendar month of [t]. *)
Definition observed (rows : DataFrame) (t : Timestamp) : Prop :=
  ∃ r t', r ∈ rows ∧ MONTH r = Some t' ∧ same_month t' t.

Definition series_index (s : Series) : list Timestamp := fst <$> s.
Definition series_values (s : Series) : list Z := snd <$> s.
Definition series_total (s : Series) : Z := foldr Z.add 0 (series_values s).

(* ===================================================================== *)
(** * Forecast engine: [forecast_sales]                                   *)
(* ===================================================================== *)

Inductive Component := add | mul.

#[global] Instance Component_eq_dec : EqDecision Component.
Proof. solve_decision. Defined.

(** The keyword arguments of [ExponentialSmoothing]. *)
Record ModelSpec := mkSpec {
  trend : option Component;
  seasonal : option Component;
  seasonal_periods : option nat;
}.

#[global] Instance ModelSpec_eq_dec : EqDecision ModelSpec.
Proof. solve_decision. Defined.

(** [ExponentialSmoothing(y, trend="add")] *)
Definition trend_only : ModelSpec := mkSpec (Some add) None None.

(** [ExponentialSmoothing(y, trend="add", seasonal="add", seasonal_periods=12)] *)
Definition trend_seasonal : ModelSpec := mkSpec (Some add) (Some add) (Some 12%nat).

(** The smoothing library: building and fitting a model may raise; a fitted
    model gives a point prediction for each step ahead. *)
Class Smoother := {
  Fitted : Type;
  Value : Type;
  fit : ModelSpec → list Z → string + Fitted;
  predict : Fitted → nat → Value;
}.

(** What the library does with a single observation: the additive trend
    is initialised from the first two observations, [y[1] - y[0]], and on a
    series of one observation that index is out of bounds.  The text of a
    raised fit names the class of the exception. *)
Definition trend_needs_two_points `{Smoother} : Prop :=
  ∀ y : Z, fit trend_only [y] = inl "IndexError".

(** [model.forecast(steps)]: the predictions for steps 1 to [steps]. *)
Definition forecast `{Smoother} (model : Fitted) (steps : nat) : list Value :=
  predict model <$> seq 1 steps.

(** [df[df["PRODUCT_CODE"] == product_code]] *)
Definition product_rows (df : DataFrame) (product_code : Z) : DataFrame :=
  filter (λ r, PRODUCT_CODE r = product_code) df.

(** Lines 61 and 62: the first description unless the column is empty. *)
Definition pick_description (product_df : DataFrame) (product_code : Z) : string :=
  match PRODUCT_DESCRIPTION <$> product_df with
  | d :: _ => d
  | [] => "Product " +:+ pretty product_code
  end.

(** Lines 67 to 72: the model built for a resampled series. *)
Definition choose_model (product_df : Series) : ModelSpec :=
  if bool_decide (length product_df < 24)%nat then trend_only
  else trend_seasonal.

(** The triple [forecast_sales] returns; [(None, None, None)] when the
    product has no rows. *)
Definition Outcome `{Smoother} : Type :=
  option Series * option (list Value) * option string.

(** Lines 68 to 75 once the model is chosen: fit, forecast, return. *)
Definition fit_and_forecast `{Smoother} (spec : ModelSpec) (product_df : Series)
    (forecast_periods : nat) (product_description : string) : exn + Outcome :=
  match fit spec (series_values product_df) with
  | inl what => inl (FitError what)
  | inr model =>
      inr (Some product_df,
           Some (forecast model forecast_periods),
           Some product_description)
  end.

Definition forecast_sales `{Smoother}
    (df : DataFrame) (product_code : Z) (forecast_periods : nat) : exn + Outcome :=
  let product_df := product_rows df product_code in
  if bool_decide (product_df = []) then inr (None, None, None)
  else
    let product_description := pick_description product_df product_code in
    match resample_M_sum product_df with
    | inl e => inl e
    | inr product_df =>
        fit_and_forecast (choose_model product_df) product_df
                         forecast_periods product_description
    end.

(** The default of [forecast_periods]. *)
Definition default_periods : nat := 12.

(* ===================================================================== *)
(** * Presentation: result bundles and the forecast axis                  *)
(* ===================================================================== *)

Record Bundle `{Smoother} := mkBundle {
  b_product_code : Z;
  b_product_description : option string;
  b_historical_data : Series;
  b_forecast : option (list Value);
}.

(** Lines 146 to 155: one bundle per selected product that has data. *)
Fixpoint collect_forecasts `{Smoother}
    (filtered_sales : DataFrame) (selected : list Z) : exn + list Bundle :=
  match selected with
  | [] => inr []
  | product_code :: selected' =>
      match forecast_sales filtered_sales product_code default_periods with
      | inl e => inl e
      | inr (historical_data, fc, product_description) =>
          match collect_forecasts filtered_sales selected' with
          | inl e => inl e
          | inr forecasts =>
              match historical_data with
              | Some h =>
                  inr (mkBundle _ product_code product_description h fc :: forecasts)
              | None => inr forecasts
              end
          end
      end
  end.

(** Lines 98 to 102: the time axis of the forecast trace. *)
Definition forecast_index `{Smoother}
    (historical_data : Series) (fc : list Value) : exn + list Timestamp :=
  match last (series_index historical_data) with
  | None => inl IndexError
  | Some t => inr (date_range_M (add_DateOffset_month t) (length fc))
  end.

(* ===================================================================== *)
(** * The description rule as the specification words it                  *)
(* ===================================================================== *)

(** Description of the first row whose description is not empty, and the
    synthesised label when every description is empty. *)
Definition spec_description (product_df : DataFrame) (product_code : Z) : string :=
  match filter (λ d, d ≠ "") (PRODUCT_DESCRIPTION <$> product_df) with
  | d :: _ => d
  | [] => "Product " +:+ pretty product_code
  end.

(* ===================================================================== *)
(** * Figure: [plot_forecasts]                                            *)
(* ===================================================================== *)

(** Exceptions of the presentation layer: those of the pipeline, and the
    [TypeError] of [len(None)]. *)
Inductive py_error :=
  | Raised (e : exn)
  | TypeError (what : string).

(** The values of a trace: historical quantities or predictions. *)
Inductive YData `{Smoother} :=
  | Quantities (q : list Z)
  | Predictions (v : list Value).

Definition ydata_length `{Smoother} (y : YData) : nat :=
  match y with
  | Quantities q => length q
  | Predictions v => length v
  end.

(** [go.Scatter(x=..., y=..., mode=..., name=...)] *)
Record Trace `{Smoother} := mkTrace {
  tr_x : list Timestamp;
  tr_y : YData;
  tr_mode : string;
  tr_name : string;
}.

Record Layout := mkLayout {
  lay_title : string;
  lay_xaxis_title : string;
  lay_yaxis_title : string;
  lay_legend_title : string;
}.

Record Figure `{Smoother} := mkFigure {
  fig_data : list Trace;
  fig_layout : Layout;
}.

(** A description inside an f-string; [None] is printed as its name. *)
Definition format_description (d : option string) : string := default "None" d.

(** The body of the loop of [plot_forecasts], lines 83 to 108: for each
    result the historical trace, then the forecast trace on its axis.
    The start of the axis is evaluated before [len(forecast)]. *)
Fixpoint add_traces `{Smoother} (forecasts : list Bundle) : py_error + list Trace :=
  match forecasts with
  | [] => inr []
  | result :: forecasts' =>
      let historical_data := b_historical_data result in
      let name := format_description (b_product_description result) in
      let historical :=
        mkTrace _ (series_index historical_data)
                (Quantities (series_values historical_data))
                "lines" (name +:+ " (Historical)") in
      match b_forecast result with
      | None =>
          match last (series_index historical_data) with
          | None => inl (Raised IndexError)
          | Some _ => inl (TypeError "NoneType")
          end
      | Some fc =>
          match forecast_index historical_data fc with
          | inl e => inl (Raised e)
          | inr axis =>
              match add_traces forecasts' with
              | inl e => inl e
              | inr traces =>
                  inr (historical
                       :: mkTrace _ axis (Predictions fc) "lines"
                                  (name +:+ " (Forecast)")
                       :: traces)
              end
          end
      end
  end.

Definition plot_forecasts `{Smoother} (forecasts : list Bundle) : py_error + Figure :=
  match add_traces forecasts with
  | inl e => inl e
  | inr traces =>
      inr (mkFigure _ traces
             (mkLayout "Sales Forecasts for Selected Products"
                       "Month" "Quantity" "Products"))
  end.

(* ===================================================================== *)
(** * Dashboard: the script body                                          *)
(* ===================================================================== *)

(** [Series.unique()]: the distinct values in order of first appearance. *)
Fixpoint unique_from (seen : list Z) (col : list Z) : list Z :=
  match col with
  | [] => []
  | c :: col' =>
      if decide (c ∈ seen) then unique_from seen col'
      else c :: unique_from (c :: seen) col'
  end.

Definition unique (col : list Z) : list Z := unique_from [] col.

(** Line 138. *)
Definition product_codes (filtered_sales : DataFrame) : list Z :=
  unique (PRODUCT_CODE <$> filtered_sales).

(** Line 142: the preselected codes of the multiselect. *)
Definition default_selection (codes : list Z) : list Z :=
  if bool_decide (3 ≤ length codes)%nat then take 3 codes else codes.

(** What the page shows below the selection. *)
Inductive Display `{Smoother} :=
  | Chart (fig : Figure)
  | Warning (message : string).

(** Lines 146 to 161: forecasts for the selected codes, then the chart, or
    the warning when no forecast was collected. *)
Definition show_forecasts `{Smoother}
    (filtered_sales : DataFrame) (selected : list Z) : py_error + Display :=
  match collect_forecasts filtered_sales selected with
  | inl e => inl (Raised e)
  | inr [] => inr (Warning "No data available for the selected products.")
  | inr forecasts =>
      match plot_forecasts forecasts with
      | inl e => inl e
      | inr fig => inr (Chart fig)
      end
  end.

(* ===================================================================== *)
(** * Instances for evaluation                                            *)
(* ===================================================================== *)

(** A smoother that predicts the last observation at every step; it serves
    to run the pipeline on concrete tables. *)
Definition last_value_smoother : Smoother :=
  {| Fitted := Z;
     Value := Z;
     fit := λ _ ys, match last ys with
                    | Some y => inr y
                    | None => inl "no observations"
                    end;
     predict := λ model _, model |}.

(** Rows for the examples: the YEAR column plays no part after loading. *)
Definition example_row (code : Z) (descr : string) (m : option Timestamp)
    (q : option Z) : Row :=
  mkRow code descr m (ts_year <$> m) q.

Definition first_of (y : Z) (m : Month) : option Timestamp := Some (mkTs y m 1).

(** One product with a single record. *)
Definition single_record_table : DataFrame :=
  [example_row 1 "widget" (first_of 1900 Mar) (Some 4)].

(** One product observed in January 1900 and December 1901: 24 months. *)
Definition two_year_table : DataFrame :=
  [example_row 1 "widget" (first_of 1900 Jan) (Some 4);
   example_row 1 "widget" (first_of 1901 Dec) (Some 6)].

(** One product whose first row has an empty description. *)
Definition blank_first_table : DataFrame :=
  [example_row 1 "" (first_of 1900 Jan) (Some 5);
   example_row 1 "widget" (first_of 1900 Apr) (Some 3)].

(** One product with a row whose month did not parse. *)
Definition missing_month_table : DataFrame :=
  [example_row 1 "widget" (first_of 1900 Jan) (Some 5);
   example_row 1 "widget" None (Some 7)].

(** A sheet with a negative, a positive and an empty quantity cell. *)
Definition raw_quantities_sheet : list RawRow :=
  [mkRaw "100-1" "Widget, large" "Jan" (Some (-5));
   mkRaw "100-1" "Widget, large" "Feb" (Some 7);
   mkRaw "100-1" "Widget, large" "Mar" None].

(** One product sold in January, April and December. *)
Definition three_month_table : DataFrame :=
  [example_row 1 "widget" (first_of 1900 Jan) (Some 5);
   example_row 1 "widget" (first_of 1900 Apr) (Some 3);
   example_row 1 "widget" (first_of 1900 Dec) (Some 2)].

(** The table [raw_quantities_sheet] loads to. *)
Definition loaded_quantities_table : DataFrame :=
  [mkRow 1001 "widget  large" (first_of 1900 Jan) (Some 1900) (Some 0);
   mkRow 1001 "widget  large" (first_of 1900 Feb) (Some 1900) (Some 7);
   mkRow 1001 "widget  large" (first_of 1900 Mar) (Some 1900) None].

(** A sheet whose second code is not a number. *)
Definition bad_code_sheet : list RawRow :=
  [mkRaw "100-1" "Widget, large" "Jan" (Some 4);
   mkRaw "10x-1" "Widget, small" "Feb" (Some 7)].


(** One product with two dated rows and one row whose month did not
    parse. *)
Definition undated_row_table : DataFrame :=
  [example_row 1 "widget" (first_of 1900 Jan) (Some 5);
   example_row 1 "widget" (first_of 1900 Apr) (Some 3);
   example_row 1 "widget" None (Some 7)].

(** A smoother that, like the library, needs two observations: on fewer
    the fit raises, otherwise it predicts the last observation. *)
Definition two_point_smoother : Smoother :=
  {| Fitted := Z;
     Value := Z;
     fit := λ _ ys, match ys with
                    | [] | [_] => inl "IndexError"
                    | _ => match last ys with
                           | Some y => inr y
                           | None => inl "IndexError"
                           end
                    end;
     predict := λ model _, model |}.

(** A smoother whose fit always raises. *)
Definition failing_smoother : Smoother :=
  {| Fitted := Z;
     Value := Z;
     fit := λ _ _, inl "optimizer failure";
     predict := λ model _, model |}.

(** The result collected for [blank_first_table], and its figure. *)
Definition blank_first_bundles : list (@Bundle last_value_smoother) :=
  [@mkBundle last_value_smoother 1 (Some "")
     (bin blank_first_table <$> seqZ 22800 4) (Some (repeat 3 12))].

Definition blank_first_figure : @Figure last_value_smoother :=
  Eval vm_compute in
    match @plot_forecasts last_value_smoother blank_first_bundles with
    | inr fig => fig
    | inl _ => @mkFigure last_value_smoother [] (mkLayout "" "" "" "")
    end.

Definition digit_of (c : ascii) : option Z :=
  let n := Ascii.N_of_ascii c in
  if ((48 <=? n) && (n <=? 57))%N then Some (Z.of_N (n - 48)) else None.

Fixpoint parse_digits (acc : Z) (s : string) : option Z :=
  match s with
  | EmptyString => Some acc
  | String c s' => d ← digit_of c; parse_digits (acc * 10 + d) s'
  end.

Definition ascii_alnum_or_space (c : ascii) : bool :=
  let n := Ascii.N_of_ascii c in
  (((48 <=? n) && (n <=? 57)) || ((65 <=? n) && (n <=? 90))
   || ((97 <=? n) && (n <=? 122)) || (n =? 32))%N.

Fixpoint blank_punctuation (s : string) : string :=
  match s with
  | EmptyString => EmptyString
  | String c s' =>
      String (if ascii_alnum_or_space c then c else " "%char) (blank_punctuation s')
  end.

(** Text operations for the examples.  They agree with the regular
    expression and with [int] on descriptions made of ASCII letters,
    digits, blanks and punctuation and on codes written in decimal digits
    only and below 2^63; on other texts (tabs, characters outside ASCII, signs, blanks or
    underscores in a number) they differ, and no example uses such a
    text. *)
Definition plain_text_ops : TextOps :=
  {| clean_description := λ s, str_lower (blank_punctuation s);
     parse_int := λ s, match s with
                       | EmptyString => None
                       | _ => parse_digits 0 s
                       end |}.

(* ===================================================================== *)
(** * Properties of the calendar                                          *)
(* ===================================================================== *)

Lemma month_index_range m : 0 ≤ month_index m < 12.
Proof. destruct m; simpl; lia. Qed.

Lemma month_index_of_index i : 0 ≤ i < 12 → month_index (month_of_index i) = i.
Proof.
  intros Hi.
  assert (i = 0 ∨ i = 1 ∨ i = 2 ∨ i = 3 ∨ i = 4 ∨ i = 5 ∨ i = 6
          ∨ i = 7 ∨ i = 8 ∨ i = 9 ∨ i = 10 ∨ i = 11) as Hcases by lia.
  repeat (destruct Hcases as [-> | Hcases]; [reflexivity|]). by subst.
Qed.

Lemma month_of_index_index m : month_of_index (month_index m) = m.
Proof. by destruct m. Qed.

Lemma month_index_inj m1 m2 : month_index m1 = month_index m2 → m1 = m2.
Proof.
  intros Heq. rewrite <-(month_of_index_index m1), <-(month_of_index_index m2).
  by rewrite Heq.
Qed.

Lemma month_ordinal_month_end k : month_ordinal (month_end k) = k.
Proof.
  unfold month_ordinal, month_end. simpl.
  rewrite month_index_of_index by (apply Z.mod_pos_bound; lia).
  pose proof (Z.div_mod k 12). lia.
Qed.

Lemma month_end_is_month_end k : is_month_end (month_end k).
Proof. reflexivity. Qed.

(** Two timestamps share their calendar month exactly when their month
    ordinals agree. *)
Lemma month_ordinal_inj a b :
  month_ordinal a = month_ordinal b ↔
  ts_year a = ts_year b ∧ ts_month a = ts_month b.
Proof.
  unfold month_ordinal. split.
  - intros Heq.
    pose proof (month_index_range (ts_month a)).
    pose proof (month_index_range (ts_month b)).
    assert (ts_year a = ts_year b) as Hy by lia.
    split; [done|]. apply month_index_inj. lia.
  - by intros [-> ->].
Qed.

Lemma following_month_ordinal t :
  (following_month t).1 * 12 + month_index (following_month t).2
  = month_ordinal t + 1.
Proof.
  unfold following_month, month_ordinal.
  destruct (ts_month t); simpl; lia.
Qed.

Lemma next_month_ordinal a b :
  next_month a b ↔ month_ordinal b = month_ordinal a + 1.
Proof.
  unfold next_month. rewrite <-following_month_ordinal.
  pose (c := mkTs (following_month a).1 (following_month a).2 0).
  change ((following_month a).1 * 12 + month_index (following_month a).2)
    with (month_ordinal c).
  rewrite month_ordinal_inj. simpl.
  destruct (following_month a) as [y m]; simpl. split.
  - by intros [= -> ->].
  - by intros [-> ->].
Qed.

Lemma add_DateOffset_month_ordinal t :
  month_ordinal (add_DateOffset_month t) = month_ordinal t + 1.
Proof.
  unfold add_DateOffset_month. rewrite <-following_month_ordinal.
  by destruct (following_month t).
Qed.

Lemma monthly_from_month_ends prev k n :
  month_ordinal prev + 1 = k →
  monthly_from prev (month_end <$> seqZ k n).
Proof.
  remember (Z.to_nat n) as len eqn:Hlen.
  revert prev k n Hlen. induction len as [|len IH]; intros prev k n Hlen Hk.
  - rewrite seqZ_nil by lia. exact I.
  - rewrite seqZ_cons by lia. simpl. split.
    + apply next_month_ordinal. rewrite month_ordinal_month_end. lia.
    + apply IH; [lia|]. rewrite month_ordinal_month_end. lia.
Qed.

Lemma date_range_M_seqZ start periods :
  date_range_M start periods
  = month_end <$> seqZ (month_ordinal start) (Z.of_nat periods).
Proof.
  unfold date_range_M, seqZ. rewrite Nat2Z.id, <-list_fmap_compose.
  apply list_fmap_ext. intros ? i ?. simpl. f_equal. lia.
Qed.

Lemma length_date_range_M start periods :
  length (date_range_M start periods) = periods.
Proof. unfold date_range_M. by rewrite length_fmap, length_seq. Qed.

(* ===================================================================== *)
(** * Properties of the aggregation                                       *)
(* ===================================================================== *)

Lemma same_month_ordinal a b :
  same_month a b ↔ month_ordinal a = month_ordinal b.
Proof. unfold same_month. by rewrite month_ordinal_inj. Qed.

Lemma month_le_ordinal a b :
  month_le a b ↔ month_ordinal a ≤ month_ordinal b.
Proof.
  unfold month_le, month_ordinal.
  pose proof (month_index_range (ts_month a)).
  pose proof (month_index_range (ts_month b)).
  split.
  - intros [? | [? ?]]; lia.
  - intros ?. destruct (decide (ts_year a < ts_year b)); [by left|].
    right. lia.
Qed.

(* aggregation *)
Lemma min_month_spec k ks :
  min_month k ks ∈ k :: ks ∧ ∀ x, x ∈ k :: ks → min_month k ks ≤ x.
Proof.
  unfold min_month. induction ks as [|y ks [IHin IHle]]; simpl.
  - split; [by left|]. intros x ->%list_elem_of_singleton. lia.
  - split.
    + destruct (Z.min_spec y (foldr Z.min k ks)) as [[_ ->] | [_ ->]].
      * right. by left.
      * apply elem_of_cons in IHin as [-> | Hin]; [by left|].
        right. by right.
    + intros x Hx. rewrite !elem_of_cons in Hx.
      destruct Hx as [-> | [-> | Hx]].
      * specialize (IHle k (list_elem_of_here _ _)). lia.
      * lia.
      * specialize (IHle x (list_elem_of_further _ _ _ Hx)). lia.
Qed.

Lemma max_month_spec k ks :
  max_month k ks ∈ k :: ks ∧ ∀ x, x ∈ k :: ks → x ≤ max_month k ks.
Proof.
  unfold max_month. induction ks as [|y ks [IHin IHle]]; simpl.
  - split; [by left|]. intros x ->%list_elem_of_singleton. lia.
  - split.
    + destruct (Z.max_spec y (foldr Z.max k ks)) as [[_ ->] | [_ ->]].
      * apply elem_of_cons in IHin as [-> | Hin]; [by left|].
        right. by right.
      * right. by left.
    + intros x Hx. rewrite !elem_of_cons in Hx.
      destruct Hx as [-> | [-> | Hx]].
      * specialize (IHle k (list_elem_of_here _ _)). lia.
      * lia.
      * specialize (IHle x (list_elem_of_further _ _ _ Hx)). lia.
Qed.

Lemma elem_of_observed_months rows k :
  k ∈ observed_months rows ↔ ∃ r, r ∈ rows ∧ row_month r = Some k.
Proof. unfold observed_months. apply list_elem_of_omap. Qed.

Lemma resample_M_sum_inr rows s :
  rows ≠ [] → resample_M_sum rows = inr s →
  ∃ k ks, observed_months rows = k :: ks
          ∧ s = bin rows <$> seqZ (min_month k ks)
                                  (max_month k ks - min_month k ks + 1).
Proof.
  intros Hne. unfold resample_M_sum. destruct rows as [|r rows]; [done|].
  destruct (observed_months (r :: rows)) as [|k ks]; [done|].
  intros [= <-]. by exists k, ks.
Qed.

Lemma series_index_bins rows ks :
  series_index (bin rows <$> ks) = month_end <$> ks.
Proof. unfold series_index. by rewrite <-list_fmap_compose. Qed.

Lemma series_total_cons t q (s : Series) :
  series_total ((t, q) :: s) = q + series_total s.
Proof. reflexivity. Qed.

Lemma bin_value_cons r rows b :
  (bin (r :: rows) b).2
  = (if decide (in_month b r) then default 0 (QUANTITY r) else 0)
    + (bin rows b).2.
Proof.
  unfold bin. simpl. rewrite filter_cons.
  destruct (decide (in_month b r)); simpl; [reflexivity | lia].
Qed.

Lemma has_month_in_cons b ks r :
  has_month_in (b :: ks) r ↔ in_month b r ∨ has_month_in ks r.
Proof.
  unfold has_month_in, in_month. destruct (row_month r) as [k|].
  - rewrite elem_of_cons. split; intros [H | H]; auto; [left | left]; congruence.
  - split; [done | by intros [? | ?]].
Qed.

Lemma bin_total_cons r rows ks :
  NoDup ks →
  series_total (bin (r :: rows) <$> ks)
  = (if decide (has_month_in ks r) then default 0 (QUANTITY r) else 0)
    + series_total (bin rows <$> ks).
Proof.
  induction 1 as [|b ks Hb Hnd IH].
  { rewrite decide_False; [reflexivity|].
    unfold has_month_in. destruct (row_month r); [apply not_elem_of_nil | tauto]. }
  rewrite !fmap_cons.
  rewrite (surjective_pairing (bin (r :: rows) b)), series_total_cons.
  rewrite (surjective_pairing (bin rows b)), series_total_cons.
  rewrite IH, bin_value_cons.
  destruct (decide (in_month b r)) as [Hin | Hin].
  - rewrite (decide_True (P := has_month_in (b :: ks) r))
      by (apply has_month_in_cons; by left).
    rewrite (decide_False (P := has_month_in ks r)); [lia|].
    unfold has_month_in, in_month in *. rewrite Hin. done.
  - destruct (decide (has_month_in ks r)) as [Hks | Hks].
    + rewrite decide_True by (apply has_month_in_cons; by right). lia.
    + rewrite decide_False; [lia|]. rewrite has_month_in_cons. tauto.
Qed.

Lemma bin_total_nil ks : series_total (bin [] <$> ks) = 0.
Proof. induction ks as [|b ks IH]; [reflexivity|]. rewrite fmap_cons.
  rewrite (surjective_pairing (bin [] b)), series_total_cons, IH. reflexivity.
Qed.

(** The bins over distinct months hold, in total, the quantities of the
    rows whose month is one of them. *)
Lemma bin_total rows ks :
  NoDup ks →
  series_total (bin rows <$> ks)
  = sum_skipna (QUANTITY <$> filter (has_month_in ks) rows).
Proof.
  intros Hnd. induction rows as [|r rows IH].
  - apply bin_total_nil.
  - rewrite bin_total_cons by done. rewrite IH, filter_cons.
    destruct (decide (has_month_in ks r)); [reflexivity | lia].
Qed.

Lemma filter_has_month_in rows ks :
  (∀ k, k ∈ observed_months rows → k ∈ ks) →
  filter (has_month_in ks) rows = filter has_month rows.
Proof.
  induction rows as [|r rows IH]; intros Hcover; [done|].
  rewrite !filter_cons.
  assert (has_month_in ks r ↔ has_month r) as Hiff.
  { unfold has_month_in, has_month, row_month.
    destruct (MONTH r) as [t|] eqn:Ht; simpl.
    - split; [by eauto|]. intros _. apply Hcover.
      apply elem_of_observed_months. exists r. split; [by left|].
      unfold row_month. by rewrite Ht.
    - split; [done|]. by intros [? [=]]. }
  rewrite IH.
  - destruct (decide (has_month_in ks r)), (decide (has_month r)); tauto || done.
  - intros k Hk. apply Hcover. apply elem_of_observed_months.
    apply elem_of_observed_months in Hk as (r' & Hr' & Hm).
    exists r'. split; [by right | done].
Qed.

Lemma observed_in_range k ks x :
  x ∈ k :: ks →
  x ∈ seqZ (min_month k ks) (max_month k ks - min_month k ks + 1).
Proof.
  intros Hx. apply elem_of_seqZ.
  pose proof (min_month_spec k ks) as [_ Hmin].
  pose proof (max_month_spec k ks) as [_ Hmax].
  specialize (Hmin x Hx). specialize (Hmax x Hx). lia.
Qed.

(** Characterisation of a returned triple. *)
Lemma forecast_sales_inr `{Smoother} df product_code n hist fc descr :
  forecast_sales df product_code n = inr (Some hist, fc, descr) →
  product_rows df product_code ≠ []
  ∧ resample_M_sum (product_rows df product_code) = inr hist
  ∧ ∃ model, fit (choose_model hist) (series_values hist) = inr model
             ∧ fc = Some (forecast model n)
             ∧ descr = Some (pick_description (product_rows df product_code)
                                              product_code).
Proof.
  unfold forecast_sales. case_bool_decide as Hrows; [done|].
  destruct (resample_M_sum _) as [e | s]; [done|].
  unfold fit_and_forecast.
  destruct (fit (choose_model s) (series_values s)) as [what | model] eqn:Hfit;
    [done|].
  intros [= <- <- <-]. split_and!; [done | done |]. by exists model.
Qed.


(* ===================================================================== *)
(** * Properties of the season filter                                     *)
(* ===================================================================== *)

Lemma filter_idem {A} (P : A → Prop) `{!∀ x, Decision (P x)} (l : list A) :
  filter P (filter P l) = filter P l.
Proof.
  induction l as [|x l IH]; [done|].
  rewrite filter_cons. case_decide as HP.
  - rewrite filter_cons_True by done. by rewrite IH.
  - done.
Qed.

Lemma SEASON_MONTHS_unknown (season : string) :
  season ∉ season_options → SEASON_MONTHS !! season = None.
Proof.
  unfold season_options. rewrite !not_elem_of_cons.
  intros (_ & ? & ? & ? & ? & _).
  apply not_elem_of_list_to_map_1. simpl. rewrite !not_elem_of_cons.
  split_and!; try done. apply not_elem_of_nil.
Qed.

Lemma filter_by_season_known df season months :
  season ≠ "All" → SEASON_MONTHS !! season = Some months →
  filter_by_season df season = inr (filter (month_isin months) df).
Proof.
  intros Hne Hlook. unfold filter_by_season.
  rewrite decide_False by done. by rewrite Hlook.
Qed.

(* ===================================================================== *)
(** * Properties of the forecast engine                                   *)
(* ===================================================================== *)

Lemma choose_model_short (s : Series) :
  (length s < 24)%nat → choose_model s = trend_only.
Proof. intros. unfold choose_model. by rewrite bool_decide_eq_true_2. Qed.


Lemma forecast_sales_resampled `{Smoother} df product_code n hist :
  product_rows df product_code ≠ [] →
  resample_M_sum (product_rows df product_code) = inr hist →
  forecast_sales df product_code n
  = fit_and_forecast (choose_model hist) hist n
      (pick_description (product_rows df product_code) product_code).
Proof.
  intros Hne Hres. unfold forecast_sales.
  rewrite bool_decide_eq_false_2 by done. by rewrite Hres.
Qed.

Lemma length_forecast `{Smoother} (model : Fitted) steps :
  length (forecast model steps) = steps.
Proof. unfold forecast. by rewrite length_fmap, length_seq. Qed.

Lemma last_month_ends k n :
  0 < n → last (month_end <$> seqZ k n) = Some (month_end (k + n - 1)).
Proof.
  intros Hn. rewrite fmap_last.
  replace n with ((n - 1) + 1) at 1 by lia.
  rewrite seqZ_app by lia. rewrite last_app.
  rewrite seqZ_cons by lia. rewrite seqZ_nil by lia. simpl.
  do 2 f_equal. lia.
Qed.

Lemma month_range_nonempty k ks : 0 < max_month k ks - min_month k ks + 1.
Proof.
  pose proof (min_month_spec k ks) as [_ Hmin].
  pose proof (max_month_spec k ks) as [_ Hmax].
  specialize (Hmin k (list_elem_of_here _ _)).
  specialize (Hmax k (list_elem_of_here _ _)). lia.
Qed.

Lemma filter_none {A} (P : A → Prop) `{!∀ x, Decision (P x)} (l : list A) :
  (∀ x, x ∈ l → ¬ P x) → filter P l = [].
Proof.
  induction l as [|x l IH]; intros Hno; [done|].
  rewrite filter_cons_False by (apply Hno; by left).
  apply IH. intros y Hy. apply Hno. by right.
Qed.

Lemma observed_of_month rows b :
  b ∈ observed_months rows → observed rows (month_end b).
Proof.
  intros (r & Hr & Hm)%elem_of_observed_months.
  unfold row_month in Hm. destruct (MONTH r) as [t'|] eqn:Ht; [|done].
  injection Hm as Hm. exists r, t'. split_and!; [done | done |].
  apply same_month_ordinal. by rewrite month_ordinal_month_end.
Qed.

Lemma bin_unobserved rows b :
  ¬ observed rows (month_end b) → (bin rows b).2 = 0.
Proof.
  intros Hno. unfold bin. simpl. rewrite filter_none; [done|].
  intros r Hr Hin. apply Hno. unfold in_month, row_month in Hin.
  destruct (MONTH r) as [t'|] eqn:Ht; [|done]. injection Hin as Hin.
  exists r, t'. split_and!; [done | done |].
  apply same_month_ordinal. by rewrite month_ordinal_month_end.
Qed.

Lemma pick_description_first r rows product_code :
  pick_description (r :: rows) product_code = PRODUCT_DESCRIPTION r.
Proof. reflexivity. Qed.

Lemma forecast_sales_no_rows `{Smoother} df product_code n :
  product_rows df product_code = [] →
  forecast_sales df product_code n = inr (None, None, None).
Proof. intros Hrows. unfold forecast_sales. by rewrite Hrows. Qed.

(* ===================================================================== *)
(** * Properties of the normaliser                                        *)
(* ===================================================================== *)

Lemma YEAR_assign_YEAR (sales : DataFrame) (col : list (option Z)) :
  length col = length sales → YEAR <$> assign_YEAR sales col = col.
Proof.
  unfold assign_YEAR. revert col.
  induction sales as [|r sales IH]; intros [|y col] Hlen; try done.
  simpl. f_equal. apply IH. simpl in Hlen. lia.
Qed.


Lemma QUANTITY_assign_QUANTITY (sales : DataFrame) (col : list (option Z)) :
  length col = length sales → QUANTITY <$> assign_QUANTITY sales col = col.
Proof.
  unfold assign_QUANTITY. revert col.
  induction sales as [|r sales IH]; intros [|y col] Hlen; try done.
  simpl. f_equal. apply IH. simpl in Hlen. lia.
Qed.

Lemma length_dt_year col : length (dt_year col) = length col.
Proof. unfold dt_year. by rewrite length_fmap. Qed.

Lemma QUANTITY_assign_YEAR (sales : DataFrame) (col : list (option Z)) :
  length col = length sales →
  QUANTITY <$> assign_YEAR sales col = QUANTITY <$> sales.
Proof.
  unfold assign_YEAR. revert col.
  induction sales as [|r sales IH]; intros [|y col] Hlen; try done.
  simpl. f_equal. apply IH. simpl in Hlen. lia.
Qed.

Lemma length_assign_YEAR (sales : DataFrame) (col : list (option Z)) :
  length col = length sales → length (assign_YEAR sales col) = length sales.
Proof. intros. unfold assign_YEAR. rewrite length_zip_with. lia. Qed.

Lemma QUANTITY_year_step (sales : DataFrame) :
  QUANTITY <$> year_step sales = QUANTITY <$> sales.
Proof.
  assert (length (dt_year (MONTH <$> sales)) = length sales) as Hlen
    by (by rewrite length_dt_year, length_fmap).
  unfold year_step. destruct (min_lt _ _).
  - rewrite !QUANTITY_assign_YEAR; try done.
    unfold to_datetime.
    by rewrite length_dt_year, length_fmap, length_assign_YEAR.
  - by rewrite QUANTITY_assign_YEAR.
Qed.

Lemma QUANTITY_quantity_step (sales : DataFrame) :
  QUANTITY <$> quantity_step sales = np_where_negative <$> (QUANTITY <$> sales).
Proof.
  unfold quantity_step. apply QUANTITY_assign_QUANTITY.
  by rewrite !length_fmap.
Qed.

Lemma parse_rows_QUANTITY `{TextOps} (sales : list RawRow) (parsed : DataFrame) :
  parse_rows sales = inr parsed → QUANTITY <$> parsed = raw_QUANTITY <$> sales.
Proof.
  revert parsed. induction sales as [|r sales IH]; intros parsed; simpl.
  - by intros [= <-].
  - unfold parse_row. destruct (parse_int _) as [code|]; [|done].
    destruct (parse_rows sales) as [e | rows]; [done|].
    intros [= <-]. simpl. f_equal. by apply IH.
Qed.

(** The QUANTITY column of a loaded sheet: [np.where] cell by cell. *)
Lemma load_sales_data_QUANTITY `{TextOps} (sales : list RawRow) (df : DataFrame) :
  load_sales_data sales = inr df →
  QUANTITY <$> df = np_where_negative <$> (raw_QUANTITY <$> sales).
Proof.
  unfold load_sales_data.
  destruct (parse_rows sales) as [e | parsed] eqn:Hparse; [done|].
  intros [= <-].
  rewrite QUANTITY_quantity_step, QUANTITY_year_step.
  by rewrite (parse_rows_QUANTITY sales).
Qed.

Lemma np_where_negative_cases (q : option Z) :
  match q with
  | Some v => if decide (v < 0) then np_where_negative q = Some 0
              else np_where_negative q = Some v
  | None => np_where_negative q = None
  end.
Proof.
  destruct q as [v|]; [|done]. simpl.
  destruct (decide (v < 0)).
  - by rewrite bool_decide_eq_true_2.
  - by rewrite bool_decide_eq_false_2.
Qed.

Lemma parse_month_year (raw : string) (t : Timestamp) :
  parse_month raw = Some t → ts_year t = 1900.
Proof.
  unfold parse_month, strptime_b_d. case_decide; [|done].
  destruct (list_find _ _) as [[i m]|]; simpl; [|done]. by intros [= <-].
Qed.

Lemma parse_rows_MONTH `{TextOps} (sales : list RawRow) (parsed : DataFrame) :
  parse_rows sales = inr parsed →
  Forall (λ r, ∀ t, MONTH r = Some t → ts_year t = 1900) parsed.
Proof.
  revert parsed. induction sales as [|r sales IH]; intros parsed; simpl.
  - by intros [= <-].
  - unfold parse_row. destruct (parse_int _) as [code|]; [|done].
    destruct (parse_rows sales) as [e | rows]; [done|].
    intros [= <-]. constructor; [|by apply IH].
    simpl. intros t. apply parse_month_year.
Qed.

Lemma series_min_lower_bound (col : list (option Z)) (bound y : Z) :
  Forall (λ c, ∀ v, c = Some v → bound ≤ v) col →
  series_min col = Some y → bound ≤ y.
Proof.
  intros Hcol. revert y. induction Hcol as [|c col Hc Hcol IH]; intros y; [done|].
  simpl. destruct c as [v|]; [|by apply IH].
  specialize (Hc v eq_refl).
  destruct (series_min col) as [y'|].
  - intros [= <-]. specialize (IH y' eq_refl). lia.
  - by intros [= <-].
Qed.

(** Within [load_sales_data] every parsed year is 1900, so the correction
    of the YEAR column is never taken. *)
Lemma year_step_after_parse `{TextOps} (sales : list RawRow) (parsed : DataFrame) :
  parse_rows sales = inr parsed →
  year_step parsed = assign_YEAR parsed (dt_year (MONTH <$> parsed)).
Proof.
  intros Hparse%parse_rows_MONTH. unfold year_step.
  rewrite YEAR_assign_YEAR by (by rewrite length_dt_year, length_fmap).
  unfold min_lt.
  destruct (series_min (dt_year (MONTH <$> parsed))) as [y|] eqn:Hmin; [|done].
  rewrite bool_decide_eq_false_2; [done|].
  apply series_min_lower_bound with (bound := 1900) in Hmin; [lia|].
  unfold dt_year. rewrite <-list_fmap_compose. apply Forall_fmap.
  eapply Forall_impl; [exact Hparse|]. simpl. intros r Hr v.
  destruct (MONTH r) as [t|]; simpl; [|done]. intros [= <-].
  specialize (Hr t eq_refl). lia.
Qed.


(* ===================================================================== *)
(** * Specification properties                                            *)
(* ===================================================================== *)



(** C2. Whenever [forecast_sales] returns a historical series and a
    forecast for horizon [n] (12 by default), the forecast has exactly
    [n] values; the axis [plot_forecasts] builds for it has [n] entries,
    the first in the calendar month right after the last historical
    month and each next one a month later; hence every forecast month
    lies after every historical month (no gap, no overlap). *)
Theorem forecast_follows_history `{Smoother}
    (df : DataFrame) (product_code : Z) (n : nat)
    (hist : Series) (fc : list Value) (descr : option string) :
  forecast_sales df product_code n = inr (Some hist, Some fc, descr) →
  length fc = n
  ∧ ∃ t_last axis,
      last (series_index hist) = Some t_last
      ∧ forecast_index hist fc = inr axis
      ∧ length axis = n
      ∧ monthly_from t_last axis
      ∧ ∀ t a, t ∈ series_index hist → a ∈ axis →
               month_le t t_last ∧ ¬ month_le a t_last.
Proof.
  intros (Hne & Hres & model & Hfit & [= ->] & _)%forecast_sales_inr.
  split; [apply length_forecast|].
  apply resample_M_sum_inr in Hres as (k & ks & Hobs & ->); [|done].
  pose proof (month_range_nonempty k ks) as Hpos.
  set (lo := min_month k ks) in *. set (len := max_month k ks - lo + 1) in *.
  set (t_last := month_end (lo + len - 1)).
  exists t_last, (date_range_M (add_DateOffset_month t_last) n).
  assert (last (series_index (bin (product_rows df product_code) <$> seqZ lo len))
          = Some t_last) as Hlast.
  { rewrite series_index_bins. by apply last_month_ends. }
  split_and!.
  - done.
  - unfold forecast_index. by rewrite Hlast, length_forecast.
  - apply length_date_range_M.
  - rewrite date_range_M_seqZ. apply monthly_from_month_ends.
    by rewrite add_DateOffset_month_ordinal.
  - intros t a Ht Ha. rewrite !month_le_ordinal. unfold t_last in *.
    rewrite series_index_bins in Ht.
    apply list_elem_of_fmap in Ht as (b & -> & Hb%elem_of_seqZ).
    rewrite date_range_M_seqZ in Ha.
    apply list_elem_of_fmap in Ha as (c & -> & Hc%elem_of_seqZ).
    rewrite add_DateOffset_month_ordinal, month_ordinal_month_end in Hc.
    rewrite !month_ordinal_month_end. lia.
Qed.

Lemma forecast_follows_history_witness :
  let hist := bin two_year_table <$> seqZ 22800 24 in
  length [6; 6; 6] = 3%nat
  ∧ ∃ t_last axis,
      last (series_index hist) = Some t_last
      ∧ @forecast_index last_value_smoother hist [6; 6; 6] = inr axis
      ∧ length axis = 3%nat
      ∧ monthly_from t_last axis
      ∧ ∀ t a, t ∈ series_index hist → a ∈ axis →
               month_le t t_last ∧ ¬ month_le a t_last.
Proof.
  apply (@forecast_follows_history last_value_smoother two_year_table 1 3
           (bin two_year_table <$> seqZ 22800 24) [6; 6; 6] (Some "widget")).
  reflexivity.
Defined.

(** C3, as stated, fails: for a product with a single record
    [forecast_sales] does fail, but with the [IndexError] that the fit of
    the trend raises on one observation, not with an error of its own for
    insufficient data. *)
Lemma single_record_raises_IndexError :
  ¬ (∀ (S : Smoother) (df : DataFrame) (product_code : Z) (n : nat)
       (hist : Series),
       trend_needs_two_points →
       product_rows df product_code ≠ [] →
       resample_M_sum (product_rows df product_code) = inr hist →
       (length hist < 2)%nat →
       forecast_sales df product_code n
       = inl (FitError "InsufficientDataError")).
Proof.
  intros Hclaim.
  specialize (Hclaim two_point_smoother single_record_table 1 12%nat
                (bin single_record_table <$> seqZ 22802 1)).
  assert (@forecast_sales two_point_smoother single_record_table 1 12
          = inl (FitError "IndexError")) as Hrun by reflexivity.
  rewrite Hrun in Hclaim.
  assert (@inl exn (@Outcome two_point_smoother) (FitError "IndexError")
          = inl (FitError "InsufficientDataError")) as Heq.
  { apply Hclaim.
    - intros y. reflexivity.
    - vm_compute. discriminate.
    - reflexivity.
    - vm_compute. lia. }
  discriminate Heq.
Qed.

(** C3, amended. A product without matching rows gives the triple of
    [None]s and adds no result.  A product with rows whose series has
    fewer than 2 observations meets no length check in [forecast_sales]:
    the series goes to the fit of the trend-only model, and with a
    library that needs two observations for the trend [forecast_sales]
    fails with the [IndexError] raised there and returns no forecast. *)
Theorem short_series_raises_in_fit `{Smoother}
    (df : DataFrame) (product_code : Z) (n : nat) :
  trend_needs_two_points →
  (product_rows df product_code = [] →
     forecast_sales df product_code n = inr (None, None, None)
     ∧ ∀ selected, collect_forecasts df (product_code :: selected)
                   = collect_forecasts df selected)
  ∧ (∀ hist,
       product_rows df product_code ≠ [] →
       resample_M_sum (product_rows df product_code) = inr hist →
       (length hist < 2)%nat →
       forecast_sales df product_code n = inl (FitError "IndexError")).
Proof.
  intros Hlaw. split.
  - intros Hrows. split; [by apply forecast_sales_no_rows|].
    intros selected. simpl. rewrite forecast_sales_no_rows by done.
    by destruct (collect_forecasts df selected).
  - intros hist Hne Hres Hlen.
    rewrite (forecast_sales_resampled _ _ _ hist) by done.
    rewrite choose_model_short by lia.
    apply resample_M_sum_inr in Hres as (k & ks & _ & ->); [|done].
    pose proof (month_range_nonempty k ks) as Hpos.
    rewrite seqZ_cons in Hlen |- * by lia.
    destruct (seqZ _ _) as [|b bs]; [|simpl in Hlen; lia].
    unfold fit_and_forecast. simpl. by rewrite Hlaw.
Qed.

Lemma short_series_raises_in_fit_witness :
  (@forecast_sales two_point_smoother single_record_table 2 12
     = inr (None, None, None)
   ∧ ∀ selected, @collect_forecasts two_point_smoother single_record_table
                   (2 :: selected)
                 = @collect_forecasts two_point_smoother single_record_table
                     selected)
  ∧ @forecast_sales two_point_smoother single_record_table 1 12
    = inl (FitError "IndexError").
Proof.
  assert (@trend_needs_two_points two_point_smoother) as Hlaw
    by (intros y; reflexivity).
  pose proof (@short_series_raises_in_fit two_point_smoother
                single_record_table) as Hthm.
  split.
  - apply (Hthm 2 12%nat Hlaw). reflexivity.
  - destruct (Hthm 1 12%nat Hlaw) as [_ Hfit].
    apply (Hfit (bin single_record_table <$> seqZ 22802 1)).
    + vm_compute. discriminate.
    + reflexivity.
    + vm_compute. lia.
Defined.

(** C4. On a sheet with a negative, a positive and an empty quantity
    cell, [load_sales_data] turns the negative quantity into 0, keeps
    the positive one, and leaves the empty cell missing: it does not
    become 0. *)
Theorem missing_quantity_stays_missing :
  ∃ df, @load_sales_data plain_text_ops raw_quantities_sheet = inr df
        ∧ PRODUCT_CODE <$> df = [1001; 1001; 1001]
        ∧ QUANTITY <$> df = [Some 0; Some 7; None].
Proof. eexists. split; [reflexivity|]. split; reflexivity. Qed.


(** C6, as stated, fails: when the first matching row has an empty
    description and a later one has not, the returned description is the
    empty one of the first row. *)
Lemma description_not_first_nonempty :
  ¬ (∀ (S : Smoother) (df : DataFrame) (product_code : Z) (n : nat)
       (hist : option Series) (fc : option (list Value)) (descr : string),
       forecast_sales df product_code n = inr (hist, fc, Some descr) →
       descr = spec_description (product_rows df product_code) product_code).
Proof.
  intros Hclaim.
  specialize (Hclaim last_value_smoother blank_first_table 1 12%nat
                _ _ _ eq_refl).
  vm_compute in Hclaim. discriminate.
Qed.

(** C6, amended. Whenever [forecast_sales] returns a description, the
    product has a matching row and the description is that of the first
    matching row, empty or not. *)
Theorem description_is_first_row `{Smoother}
    (df : DataFrame) (product_code : Z) (n : nat)
    (hist : option Series) (fc : option (list Value)) (descr : string) :
  forecast_sales df product_code n = inr (hist, fc, Some descr) →
  ∃ r rows, product_rows df product_code = r :: rows
            ∧ descr = PRODUCT_DESCRIPTION r.
Proof.
  unfold forecast_sales. case_bool_decide as Hrows; [done|].
  destruct (product_rows df product_code) as [|r rows]; [done|].
  destruct (resample_M_sum _) as [e | s]; [done|].
  unfold fit_and_forecast. destruct (fit _ _) as [what | model]; [done|].
  intros [= _ _ <-]. by exists r, rows.
Qed.

Lemma description_is_first_row_witness :
  ∃ r rows, product_rows blank_first_table 1 = r :: rows
            ∧ "" = PRODUCT_DESCRIPTION r.
Proof.
  apply (@description_is_first_row last_value_smoother blank_first_table 1 12
           (Some (bin blank_first_table <$> seqZ 22800 4))
           (Some (repeat 3 12)) "").
  reflexivity.
Defined.

(** C7. For a product with a matching row that has a month, resampling
    produces a series, the one [forecast_sales] returns as historical
    data, in which adjacent entries are one calendar month apart, whose
    first and last months are observed months of the product with every
    observed month between them, and in which a month without a record
    has quantity 0. *)
Theorem aggregated_series_has_no_gaps (df : DataFrame) (product_code : Z) :
  let rows := product_rows df product_code in
  (∃ r, r ∈ rows ∧ has_month r) →
  ∃ hist,
    resample_M_sum rows = inr hist
    ∧ consecutive_months (series_index hist)
    ∧ (∃ t_first t_last,
         head (series_index hist) = Some t_first
         ∧ last (series_index hist) = Some t_last
         ∧ observed rows t_first ∧ observed rows t_last
         ∧ ∀ r t, r ∈ rows → MONTH r = Some t →
                  month_le t_first t ∧ month_le t t_last)
    ∧ (∀ t q, (t, q) ∈ hist → ¬ observed rows t → q = 0)
    ∧ (∀ (S : Smoother) n h fc descr,
         forecast_sales df product_code n = inr (Some h, fc, descr) → h = hist).
Proof.
  intros rows (r0 & Hr0 & Hm0).
  assert (rows ≠ []) as Hne by (intros Hnil; rewrite Hnil in Hr0; inversion Hr0).
  destruct (observed_months rows) as [|k ks] eqn:Hobs.
  { exfalso. destruct Hm0 as [t0 Ht0].
    assert (month_ordinal t0 ∈ observed_months rows) as Hin.
    { apply elem_of_observed_months. exists r0. split; [done|].
      unfold row_month. by rewrite Ht0. }
    rewrite Hobs in Hin. inversion Hin. }
  pose proof (month_range_nonempty k ks) as Hpos.
  pose proof (min_month_spec k ks) as [Hmin_in Hmin].
  pose proof (max_month_spec k ks) as [Hmax_in Hmax].
  assert (resample_M_sum rows
          = inr (bin rows <$> seqZ (min_month k ks)
                                   (max_month k ks - min_month k ks + 1)))
    as Hres.
  { unfold resample_M_sum. destruct rows; [done|]. by rewrite Hobs. }
  set (lo := min_month k ks) in *. set (hi := max_month k ks) in *.
  exists (bin rows <$> seqZ lo (hi - lo + 1)).
  rewrite series_index_bins. split_and!.
  - done.
  - rewrite seqZ_cons by lia. simpl.
    apply monthly_from_month_ends. rewrite month_ordinal_month_end. lia.
  - exists (month_end lo), (month_end hi). split_and!.
    + rewrite seqZ_cons by lia. done.
    + rewrite last_month_ends by lia. do 2 f_equal. lia.
    + apply observed_of_month. by rewrite Hobs.
    + apply observed_of_month. by rewrite Hobs.
    + intros r t Hr Ht.
      assert (month_ordinal t ∈ k :: ks) as Hin.
      { rewrite <-Hobs. apply elem_of_observed_months. exists r.
        split; [done|]. unfold row_month. by rewrite Ht. }
      rewrite !month_le_ordinal, !month_ordinal_month_end.
      specialize (Hmin _ Hin). specialize (Hmax _ Hin). lia.
  - intros t q (b & [= -> ->] & _)%list_elem_of_fmap Hno.
    by apply bin_unobserved.
  - intros S n h fc descr (_ & Hres' & _)%forecast_sales_inr.
    fold rows in Hres'. rewrite Hres in Hres'. by injection Hres' as <-.
Qed.

Lemma aggregated_series_has_no_gaps_witness :
  let rows := product_rows blank_first_table 1 in
  ∃ hist,
    resample_M_sum rows = inr hist
    ∧ consecutive_months (series_index hist)
    ∧ (∃ t_first t_last,
         head (series_index hist) = Some t_first
         ∧ last (series_index hist) = Some t_last
         ∧ observed rows t_first ∧ observed rows t_last
         ∧ ∀ r t, r ∈ rows → MONTH r = Some t →
                  month_le t_first t ∧ month_le t t_last)
    ∧ (∀ t q, (t, q) ∈ hist → ¬ observed rows t → q = 0)
    ∧ (∀ (S : Smoother) n h fc descr,
         forecast_sales blank_first_table 1 n = inr (Some h, fc, descr) →
         h = hist).
Proof.
  apply (aggregated_series_has_no_gaps blank_first_table 1).
  exists (example_row 1 "" (first_of 1900 Jan) (Some 5)).
  split; [by left | by eexists].
Defined.

(** C8, as stated, fails: a matching row whose month is missing is left
    out of the series, and its quantity with it.  The product has two
    dated rows, Jan and Apr, and an undated one; the series holds 8, the
    matching rows 15. *)
Lemma mass_not_conserved_with_missing_month :
  ¬ (∀ (S : Smoother) (df : DataFrame) (product_code : Z) (n : nat)
       (hist : Series) (fc : option (list Value)) (descr : option string),
       forecast_sales df product_code n = inr (Some hist, fc, descr) →
       series_total hist = sum_skipna (QUANTITY <$> product_rows df product_code)).
Proof.
  intros Hclaim.
  specialize (Hclaim two_point_smoother undated_row_table 1 12%nat
                _ _ _ eq_refl).
  vm_compute in Hclaim. discriminate.
Qed.

(** C8, amended. As long as the quantities of the matching rows are small
    enough for the column arithmetic to be exact, the quantities of the
    historical series [forecast_sales] returns add up to the quantities
    of the matching rows that have a month, a missing quantity counting
    as 0. *)
Theorem mass_conserved_over_dated_rows `{Smoother}
    (df : DataFrame) (product_code : Z) (n : nat)
    (hist : Series) (fc : option (list Value)) (descr : option string) :
  quantities_exact (product_rows df product_code) →
  forecast_sales df product_code n = inr (Some hist, fc, descr) →
  series_total hist
  = sum_skipna (QUANTITY <$> filter has_month (product_rows df product_code)).
Proof.
  intros _ (Hne & Hres & _)%forecast_sales_inr.
  apply resample_M_sum_inr in Hres as (k & ks & Hobs & ->); [|done].
  rewrite bin_total by apply NoDup_seqZ.
  rewrite filter_has_month_in; [done|].
  intros x Hx. rewrite Hobs in Hx. by apply observed_in_range.
Qed.

Lemma mass_conserved_over_dated_rows_witness :
  series_total (bin undated_row_table <$> seqZ 22800 4)
  = sum_skipna
      (QUANTITY <$> filter has_month (product_rows undated_row_table 1)).
Proof.
  apply (@mass_conserved_over_dated_rows two_point_smoother
           undated_row_table 1 12 _ (Some (repeat 3 12)) (Some "widget")).
  - vm_compute. reflexivity.
  - reflexivity.
Defined.

(** C9. For each of the seasons All, Winter, Spring, Summer and Autumn,
    filtering returns a table, and filtering that table again by the
    same season returns it unchanged. *)
Theorem filter_by_season_idempotent (df : DataFrame) (season : string) :
  season ∈ season_options →
  ∃ df', filter_by_season df season = inr df'
         ∧ filter_by_season df' season = inr df'.
Proof.
  unfold season_options. rewrite !elem_of_cons, elem_of_nil.
  intros [-> | [-> | [-> | [-> | [-> | []]]]]].
  - by exists df.
  - eexists. split; [by apply filter_by_season_known|].
    erewrite filter_by_season_known; [|done|reflexivity]. by rewrite filter_idem.
  - eexists. split; [by apply filter_by_season_known|].
    erewrite filter_by_season_known; [|done|reflexivity]. by rewrite filter_idem.
  - eexists. split; [by apply filter_by_season_known|].
    erewrite filter_by_season_known; [|done|reflexivity]. by rewrite filter_idem.
  - eexists. split; [by apply filter_by_season_known|].
    erewrite filter_by_season_known; [|done|reflexivity]. by rewrite filter_idem.
Qed.

Lemma filter_by_season_idempotent_witness :
  ∃ df', filter_by_season missing_month_table "Winter" = inr df'
         ∧ filter_by_season df' "Winter" = inr df'.
Proof.
  apply (filter_by_season_idempotent missing_month_table "Winter").
  unfold season_options. right. by left.
Defined.

(** C10. For a season name that is none of All, Winter, Spring, Summer
    and Autumn, [filter_by_season] raises [KeyError] with that name and
    returns no table. *)
Theorem filter_by_season_unknown_raises (df : DataFrame) (season : string) :
  season ∉ season_options → filter_by_season df season = inl (KeyError season).
Proof.
  intros Hs. unfold filter_by_season.
  rewrite decide_False by (intros ->; apply Hs; by left).
  by rewrite SEASON_MONTHS_unknown.
Qed.

Lemma filter_by_season_unknown_raises_witness :
  filter_by_season missing_month_table "Monsoon" = inl (KeyError "Monsoon").
Proof.
  apply (filter_by_season_unknown_raises missing_month_table "Monsoon").
  unfold season_options. rewrite !not_elem_of_cons.
  split_and!; try discriminate. apply not_elem_of_nil.
Defined.

(* ===================================================================== *)
(** * Further properties of the season filter                             *)
(* ===================================================================== *)

Lemma SEASON_MONTHS_lookup (season : string) (months : list string) :
  SEASON_MONTHS !! season = Some months →
  (season = "Winter" ∧ months = ["Dec"; "Jan"; "Feb"])
  ∨ (season = "Spring" ∧ months = ["Mar"; "Apr"; "May"])
  ∨ (season = "Summer" ∧ months = ["Jun"; "Jul"; "Aug"])
  ∨ (season = "Autumn" ∧ months = ["Sep"; "Oct"; "Nov"]).
Proof.
  intros Hlook. apply elem_of_list_to_map_2 in Hlook.
  rewrite !elem_of_cons, elem_of_nil in Hlook.
  destruct Hlook as [[= -> ->] | [[= -> ->] | [[= -> ->] | [[= -> ->] | []]]]];
    auto 10.
Qed.

Lemma filter_by_season_inr df season df' :
  season ≠ "All" → filter_by_season df season = inr df' →
  ∃ months, SEASON_MONTHS !! season = Some months
            ∧ df' = filter (month_isin months) df.
Proof.
  intros Hne. unfold filter_by_season. rewrite decide_False by done.
  destruct (SEASON_MONTHS !! season) as [months|]; [|done].
  intros [= <-]. by exists months.
Qed.


Lemma month_isin_dated months r t :
  MONTH r = Some t → (month_isin months r ↔ strftime_b (ts_month t) ∈ months).
Proof. intros Ht. unfold month_isin. by rewrite Ht. Qed.

(** Every month abbreviation belongs to the list of exactly one season. *)
Lemma month_in_one_season (m : Month) :
  let inb (months : list string) := bool_decide (strftime_b m ∈ months) in
  match m with
  | Dec | Jan | Feb =>
      inb ["Dec"; "Jan"; "Feb"] = true ∧ inb ["Mar"; "Apr"; "May"] = false
      ∧ inb ["Jun"; "Jul"; "Aug"] = false ∧ inb ["Sep"; "Oct"; "Nov"] = false
  | Mar | Apr | May =>
      inb ["Dec"; "Jan"; "Feb"] = false ∧ inb ["Mar"; "Apr"; "May"] = true
      ∧ inb ["Jun"; "Jul"; "Aug"] = false ∧ inb ["Sep"; "Oct"; "Nov"] = false
  | Jun | Jul | Aug =>
      inb ["Dec"; "Jan"; "Feb"] = false ∧ inb ["Mar"; "Apr"; "May"] = false
      ∧ inb ["Jun"; "Jul"; "Aug"] = true ∧ inb ["Sep"; "Oct"; "Nov"] = false
  | Sep | Oct | Nov =>
      inb ["Dec"; "Jan"; "Feb"] = false ∧ inb ["Mar"; "Apr"; "May"] = false
      ∧ inb ["Jun"; "Jul"; "Aug"] = false ∧ inb ["Sep"; "Oct"; "Nov"] = true
  end.
Proof. destruct m; vm_compute; done. Qed.

Lemma filter_month_isin_cons months r df :
  filter (month_isin months) (r :: df)
  = match MONTH r with
    | Some t =>
        if bool_decide (strftime_b (ts_month t) ∈ months)
        then r :: filter (month_isin months) df
        else filter (month_isin months) df
    | None => filter (month_isin months) df
    end.
Proof.
  rewrite filter_cons. destruct (MONTH r) as [t|] eqn:Ht.
  - case_bool_decide as Hin.
    + rewrite decide_True; [done|]. by apply (month_isin_dated _ _ t).
    + rewrite decide_False; [done|]. by rewrite (month_isin_dated _ _ t).
  - rewrite decide_False; [done|]. unfold month_isin. rewrite Ht. tauto.
Qed.

(** X2. The four seasons split the dated rows: the Winter, Spring, Summer
    and Autumn tables together hold every row that has a month exactly
    once, and no other row. *)
Theorem seasons_partition_dated_rows (df : DataFrame) :
  ∃ winter spring summer autumn,
    filter_by_season df "Winter" = inr winter
    ∧ filter_by_season df "Spring" = inr spring
    ∧ filter_by_season df "Summer" = inr summer
    ∧ filter_by_season df "Autumn" = inr autumn
    ∧ winter ++ spring ++ summer ++ autumn ≡ₚ filter has_month df.
Proof.
  exists (filter (month_isin ["Dec"; "Jan"; "Feb"]) df),
         (filter (month_isin ["Mar"; "Apr"; "May"]) df),
         (filter (month_isin ["Jun"; "Jul"; "Aug"]) df),
         (filter (month_isin ["Sep"; "Oct"; "Nov"]) df).
  split_and!; try (apply filter_by_season_known; [done | reflexivity]).
  induction df as [|r df IH]; [done|].
  rewrite !filter_month_isin_cons.
  destruct (MONTH r) as [t|] eqn:Ht.
  - rewrite (filter_cons_True has_month) by (unfold has_month; eauto).
    pose proof (month_in_one_season (ts_month t)) as Hm. simpl in Hm.
    destruct (ts_month t); destruct Hm as (-> & -> & -> & ->);
      rewrite <-IH; simpl;
      rewrite <-?Permutation_middle; done.
  - rewrite (filter_cons_False has_month); [done|].
    unfold has_month. rewrite Ht. by intros [? ?].
Qed.

(** The month lists of two different seasons share no abbreviation. *)
Lemma season_lists_disjoint s1 s2 months1 months2 (m : Month) :
  s1 ≠ s2 →
  SEASON_MONTHS !! s1 = Some months1 → SEASON_MONTHS !! s2 = Some months2 →
  strftime_b m ∈ months1 → strftime_b m ∈ months2 → False.
Proof.
  intros Hne H1%SEASON_MONTHS_lookup H2%SEASON_MONTHS_lookup.
  pose proof (month_in_one_season m) as Hm. simpl in Hm.
  intros Hin1 Hin2.
  apply (bool_decide_eq_true_2 _) in Hin1.
  apply (bool_decide_eq_true_2 _) in Hin2.
  destruct H1 as [[-> ->] | [[-> ->] | [[-> ->] | [-> ->]]]];
    destruct H2 as [[-> ->] | [[-> ->] | [[-> ->] | [-> ->]]]];
    try done;
    destruct m; destruct Hm as (? & ? & ? & ?); congruence.
Qed.

(** X3. Filtering by one season and then by a different one leaves no
    row. *)
Theorem different_seasons_share_no_row
    (df : DataFrame) (s1 s2 : string) (df1 : DataFrame) :
  s1 ≠ "All" → s2 ≠ "All" → s1 ≠ s2 →
  s2 ∈ season_options →
  filter_by_season df s1 = inr df1 →
  filter_by_season df1 s2 = inr [].
Proof.
  intros Hne1 Hne2 Hne Hopt (months1 & Hlook1 & ->)%filter_by_season_inr;
    [|done].
  destruct (SEASON_MONTHS !! s2) as [months2|] eqn:Hlook2.
  - rewrite (filter_by_season_known _ s2 months2) by done. f_equal.
    apply filter_none. intros r (Hin1 & _)%list_elem_of_filter Hin2.
    unfold month_isin in *. destruct (MONTH r) as [t|]; [|done].
    by eapply (season_lists_disjoint s1 s2).
  - exfalso. unfold season_options in Hopt.
    rewrite !elem_of_cons, elem_of_nil in Hopt.
    destruct Hopt as [-> | [-> | [-> | [-> | [-> | []]]]]]; done.
Qed.

Lemma different_seasons_share_no_row_witness :
  filter_by_season (filter (month_isin ["Dec"; "Jan"; "Feb"]) blank_first_table)
    "Spring" = inr [].
Proof.
  apply (different_seasons_share_no_row blank_first_table "Winter" "Spring");
    try discriminate.
  - unfold season_options. right. right. by left.
  - reflexivity.
Defined.


(** X4. In the historical series of a season-filtered table every month
    outside the season has quantity 0: such months only fill the range
    between the first and the last observed month. *)
Theorem off_season_months_are_zero `{Smoother}
    (df : DataFrame) (season : string) (months : list string)
    (df' : DataFrame) (product_code : Z) (n : nat)
    (hist : Series) (fc : option (list Value)) (descr : option string) :
  SEASON_MONTHS !! season = Some months →
  filter_by_season df season = inr df' →
  forecast_sales df' product_code n = inr (Some hist, fc, descr) →
  ∀ t q, (t, q) ∈ hist → strftime_b (ts_month t) ∉ months → q = 0.
Proof.
  intros Hlook Hfilter (Hne & Hres & _)%forecast_sales_inr t q Htq Hoff.
  assert (season ≠ "All") as Hall by (intros ->; done).
  rewrite (filter_by_season_known _ season months) in Hfilter by done.
  injection Hfilter as <-.
  apply resample_M_sum_inr in Hres as (k & ks & Hobs & ->); [|done].
  apply list_elem_of_fmap in Htq as (b & [= -> ->] & _).
  apply bin_unobserved. intros (r & t' & Hr & Ht' & Hsame). apply Hoff.
  unfold product_rows in Hr.
  apply list_elem_of_filter in Hr as (_ & Hr).
  apply list_elem_of_filter in Hr as (Hin & _).
  unfold month_isin in Hin. rewrite Ht' in Hin.
  destruct Hsame as [_ <-]. done.
Qed.

(* ===================================================================== *)
(** * Further properties of the normaliser                                *)
(* ===================================================================== *)

Lemma steps_row_by_row (parsed : DataFrame) :
  quantity_step (assign_YEAR parsed (dt_year (MONTH <$> parsed)))
  = (λ r, mkRow (PRODUCT_CODE r) (PRODUCT_DESCRIPTION r) (MONTH r)
                (ts_year <$> MONTH r)
                (np_where_negative (QUANTITY r))) <$> parsed.
Proof.
  unfold quantity_step, assign_QUANTITY, assign_YEAR, dt_year.
  induction parsed as [|r parsed IH]; [done|].
  simpl. f_equal. exact IH.
Qed.

Lemma parse_rows_Forall2 `{TextOps} (sales : list RawRow) (parsed : DataFrame) :
  parse_rows sales = inr parsed →
  Forall2 (λ raw r, parse_row raw = inr r) sales parsed.
Proof.
  revert parsed. induction sales as [|raw sales IH]; intros parsed; simpl.
  - intros [= <-]. constructor.
  - destruct (parse_row raw) as [e | r] eqn:Hrow; [done|].
    destruct (parse_rows sales) as [e | rows]; [done|].
    intros [= <-]. constructor; [done | by apply IH].
Qed.

(** A loaded table, row by row: the year and the quantity of a row depend
    on that row alone. *)
Lemma load_sales_data_fmap `{TextOps} (sales : list RawRow) (df : DataFrame) :
  load_sales_data sales = inr df →
  ∃ parsed,
    parse_rows sales = inr parsed
    ∧ df = (λ r, mkRow (PRODUCT_CODE r) (PRODUCT_DESCRIPTION r) (MONTH r)
                       (ts_year <$> MONTH r)
                       (np_where_negative (QUANTITY r))) <$> parsed.
Proof.
  unfold load_sales_data.
  destruct (parse_rows sales) as [e | parsed] eqn:Hparse; [done|].
  intros [= <-]. exists parsed. split; [done|].
  rewrite (year_step_after_parse sales) by done.
  apply steps_row_by_row.
Qed.

(** X5. A loaded table has one row per row of the sheet, in the same
    order, and each row is computed from its own sheet row alone: the
    code from the text without hyphens, the cleaned description, the
    parsed month (missing when it does not parse; the row is kept), the
    year of that month, and the quantity with negatives replaced by 0. *)
Theorem load_sales_data_row_by_row `{TextOps}
    (sales : list RawRow) (df : DataFrame) :
  load_sales_data sales = inr df →
  Forall2 (λ raw r,
             parse_int (remove_hyphens (raw_CODE raw)) = Some (PRODUCT_CODE r)
             ∧ PRODUCT_DESCRIPTION r = clean_description (raw_DESCRIPTION raw)
             ∧ MONTH r = parse_month (raw_MONTH raw)
             ∧ YEAR r = ts_year <$> MONTH r
             ∧ QUANTITY r = np_where_negative (raw_QUANTITY raw))
          sales df.
Proof.
  intros (parsed & Hparse%parse_rows_Forall2 & ->)%load_sales_data_fmap.
  apply Forall2_fmap_r. eapply Forall2_impl; [exact Hparse|].
  intros raw r. simpl. unfold parse_row.
  destruct (parse_int _) as [code|]; [|done]. by intros [= <-].
Qed.

Lemma load_sales_data_row_by_row_witness :
  Forall2 (λ raw r,
             @parse_int plain_text_ops (remove_hyphens (raw_CODE raw))
             = Some (PRODUCT_CODE r)
             ∧ PRODUCT_DESCRIPTION r
               = @clean_description plain_text_ops (raw_DESCRIPTION raw)
             ∧ MONTH r = parse_month (raw_MONTH raw)
             ∧ YEAR r = ts_year <$> MONTH r
             ∧ QUANTITY r = np_where_negative (raw_QUANTITY raw))
          raw_quantities_sheet
          [mkRow 1001 "widget  large" (first_of 1900 Jan) (Some 1900) (Some 0);
           mkRow 1001 "widget  large" (first_of 1900 Feb) (Some 1900) (Some 7);
           mkRow 1001 "widget  large" (first_of 1900 Mar) (Some 1900) None].
Proof.
  apply (@load_sales_data_row_by_row plain_text_ops raw_quantities_sheet).
  reflexivity.
Defined.

(** X6. No quantity present in a loaded table is negative. *)
Theorem loaded_quantities_not_negative `{TextOps}
    (sales : list RawRow) (df : DataFrame) :
  load_sales_data sales = inr df →
  ∀ r q, r ∈ df → QUANTITY r = Some q → 0 ≤ q.
Proof.
  intros (parsed & _ & ->)%load_sales_data_fmap r q.
  intros (r0 & -> & _)%list_elem_of_fmap. simpl.
  destruct (QUANTITY r0) as [v|]; simpl; [|done].
  case_bool_decide; intros [= <-]; lia.
Qed.

Lemma load_dates `{TextOps} (sales : list RawRow) (df : DataFrame) :
  load_sales_data sales = inr df →
  Forall (λ r, ∀ t, MONTH r = Some t → ts_year t = 1900) df.
Proof.
  intros (parsed & Hparse%parse_rows_MONTH & ->)%load_sales_data_fmap.
  apply Forall_fmap. eapply Forall_impl; [exact Hparse|]. done.
Qed.

Lemma parse_month_fields (raw : string) (t : Timestamp) :
  parse_month raw = Some t → t = mkTs 1900 (ts_month t) 1.
Proof.
  unfold parse_month, strptime_b_d. case_decide; [|done].
  destruct (list_find _ _) as [[i m]|]; simpl; [|done]. by intros [= <-].
Qed.

(** X7. Every month of a loaded table is the first day of a month of the
    year 1900, whatever the sheet said after the first three characters,
    and its YEAR is 1900; a row without month has no YEAR. *)
Theorem loaded_months_are_in_1900 `{TextOps}
    (sales : list RawRow) (df : DataFrame) :
  load_sales_data sales = inr df →
  ∀ r, r ∈ df →
    match MONTH r with
    | Some t => ts_year t = 1900 ∧ ts_day t = 1 ∧ YEAR r = Some 1900
    | None => YEAR r = None
    end.
Proof.
  intros (parsed & Hparse%parse_rows_Forall2 & ->)%load_sales_data_fmap r.
  intros (r0 & -> & Hr0)%list_elem_of_fmap. simpl.
  apply list_elem_of_lookup in Hr0 as [i Hi].
  destruct (Forall2_lookup_r _ _ _ _ _ Hparse Hi) as (raw & _ & Hrow).
  unfold parse_row in Hrow.
  destruct (parse_int _) as [code|]; [|done]. injection Hrow as <-. simpl.
  destruct (parse_month (raw_MONTH raw)) as [t|] eqn:Ht; [|done].
  apply parse_month_fields in Ht. rewrite Ht. done.
Qed.

(** X8. A single code that is not a number makes the whole load fail:
    loading raises and returns no table, not even for the other rows. *)
Theorem load_sales_data_raises `{TextOps} (sales : list RawRow) :
  (∃ raw, raw ∈ sales ∧ parse_int (remove_hyphens (raw_CODE raw)) = None) →
  ∃ e, load_sales_data sales = inl e.
Proof.
  intros (raw & Hin & Hnone). unfold load_sales_data.
  destruct (parse_rows sales) as [e | parsed] eqn:Hparse; [by eauto|].
  exfalso. apply parse_rows_Forall2 in Hparse.
  apply list_elem_of_lookup in Hin as [i Hi].
  destruct (Forall2_lookup_l _ _ _ _ _ Hparse Hi) as (r & _ & Hrow).
  unfold parse_row in Hrow. by rewrite Hnone in Hrow.
Qed.

Lemma load_sales_data_raises_witness :
  ∃ e, @load_sales_data plain_text_ops bad_code_sheet = inl e.
Proof.
  apply (@load_sales_data_raises plain_text_ops bad_code_sheet).
  exists (mkRaw "10x-1" "Widget, small" "Feb" (Some 7)).
  split; [right; by left | reflexivity].
Defined.

(* ===================================================================== *)
(** * Loaded tables through the filter and the forecast                   *)
(* ===================================================================== *)

Lemma filter_by_season_elem df season df' r :
  filter_by_season df season = inr df' → r ∈ df' → r ∈ df.
Proof.
  unfold filter_by_season. case_decide; [by intros [= <-]|].
  destruct (SEASON_MONTHS !! season); [|done].
  intros [= <-]. by intros [_ ?]%list_elem_of_filter.
Qed.

Lemma product_rows_elem df product_code r :
  r ∈ product_rows df product_code → r ∈ df.
Proof. unfold product_rows. by intros [_ ?]%list_elem_of_filter. Qed.

Lemma length_resample_M_sum rows hist k ks :
  observed_months rows = k :: ks →
  resample_M_sum rows = inr hist →
  Z.of_nat (length hist) = max_month k ks - min_month k ks + 1.
Proof.
  intros Hobs Hres.
  assert (rows ≠ []) as Hne by (by intros ->).
  apply resample_M_sum_inr in Hres as (k' & ks' & Hobs' & ->); [|done].
  rewrite Hobs in Hobs'. injection Hobs' as <- <-.
  rewrite length_fmap, length_seqZ.
  pose proof (month_range_nonempty k ks). lia.
Qed.

Lemma sum_skipna_nonneg (col : list (option Z)) :
  Forall (λ c, ∀ q, c = Some q → 0 ≤ q) col → 0 ≤ sum_skipna col.
Proof.
  induction 1 as [|c col Hc _ IH]; simpl; [done|].
  destruct c as [q|]; simpl; [specialize (Hc q eq_refl)|]; lia.
Qed.

(** X9. A table read by [load_sales_data] holds months of the year 1900
    only, so no product has more than 12 monthly observations and the
    model fitted is always the trend-only one, never the seasonal one,
    with or without a season filter. *)
Theorem loaded_table_never_seasonal `{TextOps} `{Smoother}
    (sales : list RawRow) (df : DataFrame) (season : string)
    (filtered_sales : DataFrame) (product_code : Z) (n : nat)
    (hist : Series) (fc : option (list Value)) (descr : option string) :
  load_sales_data sales = inr df →
  filter_by_season df season = inr filtered_sales →
  forecast_sales filtered_sales product_code n = inr (Some hist, fc, descr) →
  (length hist ≤ 12)%nat
  ∧ ∃ model, fit (mkSpec (Some add) None None) (series_values hist) = inr model
             ∧ fc = Some (forecast model n).
Proof.
  intros Hload%load_dates Hfilter
    (Hne & Hres & model & Hfit & -> & _)%forecast_sales_inr.
  assert (length hist ≤ 12)%nat as Hlen.
  { destruct (resample_M_sum_inr _ _ Hne Hres) as (k & ks & Hobs & _).
    pose proof (length_resample_M_sum _ _ _ _ Hobs Hres) as Hlen.
    assert (∀ x, x ∈ k :: ks → 1900 * 12 ≤ x ≤ 1900 * 12 + 11) as Hrange.
    { intros x Hx. rewrite <-Hobs in Hx.
      apply elem_of_observed_months in Hx as (r & Hr & Hm).
      apply product_rows_elem in Hr.
      apply (filter_by_season_elem _ _ _ _ Hfilter) in Hr.
      rewrite Forall_forall in Hload. specialize (Hload r Hr).
      unfold row_month in Hm. destruct (MONTH r) as [t|]; [|done].
      injection Hm as <-. specialize (Hload t eq_refl).
      unfold month_ordinal. rewrite Hload.
      pose proof (month_index_range (ts_month t)). lia. }
    pose proof (min_month_spec k ks) as [Hmin _].
    pose proof (max_month_spec k ks) as [Hmax _].
    apply Hrange in Hmin, Hmax. lia. }
  split; [done|]. exists model. split; [|done].
  rewrite choose_model_short in Hfit by lia. done.
Qed.

(** X10. As long as the quantities of the rows of the product are small
    enough for the column arithmetic to be exact, no quantity of the
    historical series of a loaded table is negative, with or without a
    season filter. *)
Theorem loaded_history_not_negative `{TextOps} `{Smoother}
    (sales : list RawRow) (df : DataFrame) (season : string)
    (filtered_sales : DataFrame) (product_code : Z) (n : nat)
    (hist : Series) (fc : option (list Value)) (descr : option string) :
  load_sales_data sales = inr df →
  filter_by_season df season = inr filtered_sales →
  quantities_exact (product_rows filtered_sales product_code) →
  forecast_sales filtered_sales product_code n = inr (Some hist, fc, descr) →
  ∀ t q, (t, q) ∈ hist → 0 ≤ q.
Proof.
  intros Hload Hfilter _ (Hne & Hres & _)%forecast_sales_inr t q Htq.
  apply resample_M_sum_inr in Hres as (k & ks & _ & ->); [|done].
  apply list_elem_of_fmap in Htq as (b & [= -> ->] & _).
  apply sum_skipna_nonneg. apply Forall_fmap, Forall_forall.
  intros r (_ & Hr)%list_elem_of_filter q Hq. simpl in Hq.
  apply product_rows_elem in Hr.
  apply (filter_by_season_elem _ _ _ _ Hfilter) in Hr.
  revert Hq. revert r Hr q.
  destruct (load_sales_data_fmap _ _ Hload) as (parsed & _ & ->).
  intros r (r0 & -> & _)%list_elem_of_fmap q. simpl.
  destruct (QUANTITY r0) as [v|]; simpl; [|done].
  case_bool_decide; intros [= <-]; lia.
Qed.

(* ===================================================================== *)
(** * Month texts                                                         *)
(* ===================================================================== *)

Lemma substring_0_0 s : String.substring 0 0 s = "".
Proof. by destruct s. Qed.

Lemma substring_three a b c rest :
  String.substring 0 3 (String a (String b (String c rest)))
  = String a (String b (String c "")).
Proof. simpl. by rewrite substring_0_0. Qed.

Lemma strptime_b_d_three a b c :
  strptime_b_d (String a (String b (String c "-01")))
  = (m ← list_find (λ m, str_lower (strftime_b m)
                         = str_lower (String a (String b (String c ""))))
                   all_months;
     Some (mkTs 1900 (snd m) 1)).
Proof.
  unfold strptime_b_d. rewrite substring_three.
  rewrite decide_True by reflexivity. done.
Qed.

Lemma parse_month_three a b c rest :
  parse_month (String a (String b (String c rest)))
  = (m ← list_find (λ m, str_lower (strftime_b m)
                         = str_lower (String a (String b (String c ""))))
                   all_months;
     Some (mkTs 1900 (snd m) 1)).
Proof.
  unfold parse_month. rewrite substring_three. apply strptime_b_d_three.
Qed.

Lemma parse_month_short raw :
  (String.length raw < 3)%nat → parse_month raw = None.
Proof.
  intros Hlen. destruct raw as [|a [|b [|c rest]]]; simpl in Hlen; try lia;
    reflexivity.
Qed.

Lemma length_str_lower s : String.length (str_lower s) = String.length s.
Proof. induction s as [|c s IH]; simpl; [done | by rewrite IH]. Qed.

Lemma lower_abbreviation_inj m1 m2 :
  str_lower (strftime_b m1) = str_lower (strftime_b m2) → m1 = m2.
Proof. destruct m1, m2; vm_compute; intros Heq; done || discriminate. Qed.

Lemma find_abbreviation m :
  list_find (λ m', str_lower (strftime_b m') = str_lower (strftime_b m))
            all_months
  = Some (Z.to_nat (month_index m), m).
Proof. destruct m; reflexivity. Qed.

(** X11. [parse_month] succeeds exactly on a text whose first three
    characters spell a month abbreviation, in any letter case, and gives
    the first day of that month in 1900; what follows the three
    characters plays no part. *)
Theorem parse_month_iff (raw : string) (t : Timestamp) :
  parse_month raw = Some t ↔
  ∃ m, t = mkTs 1900 m 1
       ∧ str_lower (String.substring 0 3 raw) = str_lower (strftime_b m).
Proof.
  destruct raw as [|a [|b [|c rest]]];
    try (rewrite parse_month_short by (simpl; lia); split; [done|];
         intros (m & _ & Heq); apply (f_equal String.length) in Heq;
         rewrite !length_str_lower in Heq; by destruct m).
  rewrite parse_month_three, substring_three. split.
  - destruct (list_find _ _) as [[i m]|] eqn:Hfind; simpl; [|done].
    intros [= <-]. apply list_find_Some in Hfind as (_ & Hm & _).
    by exists m.
  - intros (m & -> & <-%symmetry). by rewrite find_abbreviation.
Qed.

(* ===================================================================== *)
(** * The series does not depend on the order of the rows                 *)
(* ===================================================================== *)

Lemma sum_skipna_Permutation (col col' : list (option Z)) :
  col ≡ₚ col' → sum_skipna col = sum_skipna col'.
Proof.
  induction 1 as [|c col col' _ IH|c1 c2 col|col1 col2 col3 _ IH1 _ IH2];
    simpl; [done | by rewrite IH | lia | by rewrite IH1].
Qed.

Lemma min_month_Permutation k ks k' ks' :
  k :: ks ≡ₚ k' :: ks' → min_month k ks = min_month k' ks'.
Proof.
  intros Hperm.
  pose proof (min_month_spec k ks) as [Hin Hle].
  pose proof (min_month_spec k' ks') as [Hin' Hle'].
  rewrite Hperm in Hin. rewrite <-Hperm in Hin'.
  specialize (Hle _ Hin'). specialize (Hle' _ Hin). lia.
Qed.

Lemma max_month_Permutation k ks k' ks' :
  k :: ks ≡ₚ k' :: ks' → max_month k ks = max_month k' ks'.
Proof.
  intros Hperm.
  pose proof (max_month_spec k ks) as [Hin Hle].
  pose proof (max_month_spec k' ks') as [Hin' Hle'].
  rewrite Hperm in Hin. rewrite <-Hperm in Hin'.
  specialize (Hle _ Hin'). specialize (Hle' _ Hin). lia.
Qed.

Lemma bin_Permutation rows rows' b :
  rows ≡ₚ rows' → bin rows b = bin rows' b.
Proof.
  intros Hperm. unfold bin. f_equal.
  apply sum_skipna_Permutation. by rewrite Hperm.
Qed.

Lemma resample_M_sum_Permutation rows rows' :
  rows ≡ₚ rows' → resample_M_sum rows = resample_M_sum rows'.
Proof.
  intros Hperm. unfold resample_M_sum.
  destruct rows as [|r rows].
  { apply Permutation_nil_l in Hperm. by subst. }
  destruct rows' as [|r' rows'].
  { by apply Permutation_nil_r in Hperm. }
  assert (observed_months (r :: rows) ≡ₚ observed_months (r' :: rows'))
    as Hobs by (unfold observed_months; by rewrite Hperm).
  destruct (observed_months (r :: rows)) as [|k ks].
  { apply Permutation_nil_l in Hobs. by rewrite <-Hobs. }
  destruct (observed_months (r' :: rows')) as [|k' ks'].
  { by apply Permutation_nil_r in Hobs. }
  rewrite (min_month_Permutation _ _ _ _ Hobs),
          (max_month_Permutation _ _ _ _ Hobs).
  f_equal. apply list_fmap_ext. intros _ b _. by apply bin_Permutation.
Qed.

(** X14. Reordering the rows of the table changes neither the historical
    series nor the forecast of a product; only the description, taken
    from the first row, may change. *)
Theorem series_ignores_row_order `{Smoother}
    (df df' : DataFrame) (product_code : Z) (n : nat)
    (hist : Series) (fc : option (list Value)) (descr : option string) :
  df ≡ₚ df' →
  forecast_sales df product_code n = inr (Some hist, fc, descr) →
  ∃ descr', forecast_sales df' product_code n = inr (Some hist, fc, descr').
Proof.
  intros Hperm (Hne & Hres & model & Hfit & -> & _)%forecast_sales_inr.
  assert (product_rows df product_code ≡ₚ product_rows df' product_code)
    as Hrows by (unfold product_rows; by rewrite Hperm).
  assert (product_rows df' product_code ≠ []) as Hne'.
  { intros Hnil. rewrite Hnil in Hrows. by apply Permutation_nil_r in Hrows. }
  rewrite (resample_M_sum_Permutation _ _ Hrows) in Hres.
  rewrite (forecast_sales_resampled _ _ _ hist) by done.
  unfold fit_and_forecast. rewrite Hfit. eauto.
Qed.

(* ===================================================================== *)
(** * Properties of the collected results and the figure                  *)
(* ===================================================================== *)

(** The two shapes of a returned triple. *)
Lemma forecast_sales_outcome `{Smoother} df product_code n h fc d :
  forecast_sales df product_code n = inr (h, fc, d) →
  (product_rows df product_code = [] ∧ h = None ∧ fc = None ∧ d = None)
  ∨ (product_rows df product_code ≠ []
     ∧ ∃ hist v descr, h = Some hist ∧ fc = Some v ∧ d = Some descr
                       ∧ hist ≠ [] ∧ length v = n).
Proof.
  unfold forecast_sales. case_bool_decide as Hrows.
  - intros [= <- <- <-]. by left.
  - destruct (resample_M_sum _) as [e | s] eqn:Hres; [done|].
    unfold fit_and_forecast. destruct (fit _ _) as [what | model]; [done|].
    intros [= <- <- <-]. right. split; [done|].
    eexists _, _, _. split_and!; try done; [|apply length_forecast].
    apply resample_M_sum_inr in Hres as (k & ks & _ & ->); [|done].
    pose proof (month_range_nonempty k ks).
    rewrite seqZ_cons by lia. done.
Qed.

Lemma collect_forecasts_inr `{Smoother} df selected bundles :
  collect_forecasts df selected = inr bundles →
  b_product_code <$> bundles
  = filter (λ c, product_rows df c ≠ []) selected
  ∧ Forall (λ b, b_historical_data b ≠ []
                 ∧ (∃ v, b_forecast b = Some v ∧ length v = default_periods)
                 ∧ is_Some (b_product_description b)) bundles.
Proof.
  revert bundles. induction selected as [|c selected IH]; intros bundles; simpl.
  - intros [= <-]. split; [done | constructor].
  - destruct (forecast_sales df c default_periods) as [e | [[h fc] d]] eqn:Hc;
      [done|].
    destruct (collect_forecasts df selected) as [e | rest]; [done|].
    destruct (IH rest eq_refl) as [IHcodes IHall].
    apply forecast_sales_outcome in Hc
      as [(Hrows & -> & -> & ->) | (Hrows & hist & v & descr & -> & -> & -> & Hhist & Hv)].
    + intros [= <-]. rewrite filter_cons_False by (intros Hne; by apply Hne).
      done.
    + intros [= <-]. rewrite filter_cons_True by done.
      split; [rewrite fmap_cons; by f_equal|]. constructor; [|done]. simpl.
      split_and!; [done | by exists v | by eexists].
Qed.

(** X15. When collecting succeeds there is one result per selected code
    that has rows, in the order of the selection, each with a non-empty
    history and a forecast of 12 values; codes without rows are
    skipped. *)
Theorem collected_bundles_follow_selection `{Smoother}
    (df : DataFrame) (selected : list Z) (bundles : list Bundle) :
  collect_forecasts df selected = inr bundles →
  b_product_code <$> bundles
  = filter (λ c, product_rows df c ≠ []) selected
  ∧ Forall (λ b, b_historical_data b ≠ []
                 ∧ ∃ v, b_forecast b = Some v ∧ length v = 12%nat) bundles.
Proof.
  intros [Hcodes Hall]%collect_forecasts_inr. split; [done|].
  eapply Forall_impl; [exact Hall|]. simpl. intros b (? & ? & _). done.
Qed.

Lemma collect_forecasts_inl `{Smoother}
    (df : DataFrame) (selected : list Z) (e : exn) :
  collect_forecasts df selected = inl e ↔
  ∃ before c after,
    selected = before ++ c :: after
    ∧ Forall (λ c', ∃ o, forecast_sales df c' default_periods = inr o) before
    ∧ forecast_sales df c default_periods = inl e.
Proof.
  induction selected as [|c selected IH]; simpl.
  - split; [done|]. intros (before & c & after & Heq & _). by destruct before.
  - destruct (forecast_sales df c default_periods) as [e' | [[h fc] d]] eqn:Hc.
    + split.
      * intros [= <-]. exists [], c, selected. by split_and!.
      * intros (before & c0 & after & Heq & Hbefore & Hc0).
        destruct before as [|c1 before]; simpl in Heq; injection Heq as -> ->.
        -- congruence.
        -- apply Forall_cons in Hbefore as [[o Ho] _]. congruence.
    + destruct (collect_forecasts df selected) as [e' | rest].
      * split.
        -- intros [= <-].
           destruct (proj1 IH eq_refl)
             as (before & c0 & after & -> & Hbefore & Hc0).
           exists (c :: before), c0, after. split_and!; try done.
           constructor; [by eauto | done].
        -- intros (before & c0 & after & Heq & Hbefore & Hc0).
           destruct before as [|c1 before]; simpl in Heq; injection Heq as -> ->.
           ++ congruence.
           ++ apply Forall_cons in Hbefore as [_ Hbefore].
              apply IH. by exists before, c0, after.
      * assert (¬ ∃ before c0 after,
                  selected = before ++ c0 :: after
                  ∧ Forall (λ c', ∃ o, forecast_sales df c' default_periods
                                       = inr o) before
                  ∧ forecast_sales df c0 default_periods = inl e) as Hno.
        { intros Hex. by apply IH in Hex. }
        split; [by destruct h|].
        intros (before & c0 & after & Heq & Hbefore & Hc0).
        destruct before as [|c1 before]; simpl in Heq; injection Heq as -> ->.
        -- congruence.
        -- apply Forall_cons in Hbefore as [_ Hbefore].
           exfalso. apply Hno. by exists before, c0, after.
Qed.

(** X16. A failure for one product is not isolated: collecting raises
    exactly when [forecast_sales] raises for some selected code, with
    the exception of the first such code, and no result is returned for
    the other codes. *)
Theorem collect_forecasts_raises `{Smoother}
    (df : DataFrame) (selected : list Z) (e : exn) :
  collect_forecasts df selected = inl e ↔
  ∃ before c after,
    selected = before ++ c :: after
    ∧ Forall (λ c', ∃ o, forecast_sales df c' default_periods = inr o) before
    ∧ forecast_sales df c default_periods = inl e.
Proof. apply collect_forecasts_inl. Qed.

Lemma last_series_index_None (h : Series) :
  last (series_index h) = None ↔ h = [].
Proof.
  unfold series_index. rewrite fmap_last.
  destruct (last h) eqn:Hlast; simpl.
  - split; [done|]. intros ->. done.
  - split; [|done]. intros _. by apply last_None.
Qed.

Lemma forecast_index_inr `{Smoother} (h : Series) (fc : list Value) :
  h ≠ [] → ∃ axis, forecast_index h fc = inr axis ∧ length axis = length fc.
Proof.
  intros Hne. unfold forecast_index.
  destruct (last (series_index h)) as [t|] eqn:Hlast.
  - eexists. split; [done|]. apply length_date_range_M.
  - by apply last_series_index_None in Hlast.
Qed.

Lemma forecast_index_inl `{Smoother} (h : Series) (fc : list Value) e :
  forecast_index h fc = inl e → h = [].
Proof.
  unfold forecast_index.
  destruct (last (series_index h)) as [t|] eqn:Hlast; [done|].
  intros _. by apply last_series_index_None.
Qed.

Lemma add_traces_inr `{Smoother} (forecasts : list Bundle) traces :
  add_traces forecasts = inr traces →
  length traces = (2 * length forecasts)%nat
  ∧ tr_name <$> traces
    = flat_map (λ b, [format_description (b_product_description b)
                        +:+ " (Historical)";
                      format_description (b_product_description b)
                        +:+ " (Forecast)"]) forecasts
  ∧ Forall (λ tr, length (tr_x tr) = ydata_length (tr_y tr)
                  ∧ tr_mode tr = "lines") traces.
Proof.
  revert traces. induction forecasts as [|b forecasts IH]; intros traces; simpl.
  - intros [= <-]. split_and!; [done | done | constructor].
  - destruct (b_forecast b) as [fc|]; [|by destruct (last _)].
    destruct (forecast_index (b_historical_data b) fc) as [e | axis] eqn:Haxis;
      [done|].
    destruct (add_traces forecasts) as [e | rest]; [done|].
    destruct (IH rest eq_refl) as (IHlen & IHnames & IHall).
    intros [= <-]. split_and!.
    + simpl. lia.
    + rewrite !fmap_cons. simpl. by rewrite IHnames.
    + constructor; [|constructor; [|done]]; simpl.
      * split; [|done]. unfold series_index, series_values.
        by rewrite !length_fmap.
      * split; [|done].
        unfold forecast_index in Haxis.
        destruct (last _); [|done]. injection Haxis as <-.
        apply length_date_range_M.
Qed.

(** X17. The figure holds two traces for each result, the historical one
    and then the forecast one, named after the description, drawn as
    lines, each with as many x values as y values. *)
Theorem figure_has_two_traces_per_result `{Smoother}
    (forecasts : list Bundle) (fig : Figure) :
  plot_forecasts forecasts = inr fig →
  length (fig_data fig) = (2 * length forecasts)%nat
  ∧ tr_name <$> fig_data fig
    = flat_map (λ b, [format_description (b_product_description b)
                        +:+ " (Historical)";
                      format_description (b_product_description b)
                        +:+ " (Forecast)"]) forecasts
  ∧ Forall (λ tr, length (tr_x tr) = ydata_length (tr_y tr)
                  ∧ tr_mode tr = "lines") (fig_data fig).
Proof.
  unfold plot_forecasts.
  destruct (add_traces forecasts) as [e | traces] eqn:Htraces; [done|].
  intros [= <-]. simpl. by apply add_traces_inr.
Qed.

Lemma add_traces_ok `{Smoother} (forecasts : list Bundle) :
  (∃ traces, add_traces forecasts = inr traces) ↔
  Forall (λ b, b_historical_data b ≠ [] ∧ is_Some (b_forecast b)) forecasts.
Proof.
  induction forecasts as [|b forecasts IH]; simpl.
  - split; [constructor | by eauto].
  - destruct (b_forecast b) as [fc|] eqn:Hfc.
    + destruct (forecast_index (b_historical_data b) fc) as [e | axis] eqn:Haxis.
      * apply forecast_index_inl in Haxis. split; [by intros [? ?]|].
        intros [[Hne _] _]%Forall_cons. done.
      * assert (b_historical_data b ≠ []) as Hne.
        { intros Hnil. rewrite Hnil in Haxis. done. }
        destruct (add_traces forecasts) as [e | rest].
        -- split; [by intros [? ?]|]. intros [_ Hrest]%Forall_cons.
           apply IH in Hrest as [? ?]. done.
        -- split; [|by eauto]. intros _. constructor; [by eauto|].
           apply IH. by eauto.
    + split.
      * intros [traces Htr]. by destruct (last _).
      * intros [[_ Hsome] _]%Forall_cons. rewrite Hfc in Hsome.
        by destruct Hsome.
Qed.

(** X18. [plot_forecasts] returns a figure exactly when every result has
    a non-empty history and a forecast; otherwise it raises. *)
Theorem plot_forecasts_succeeds_iff `{Smoother} (forecasts : list Bundle) :
  (∃ fig, plot_forecasts forecasts = inr fig) ↔
  Forall (λ b, b_historical_data b ≠ [] ∧ is_Some (b_forecast b)) forecasts.
Proof.
  rewrite <-add_traces_ok. unfold plot_forecasts.
  destruct (add_traces forecasts) as [e | traces].
  - split; by intros [? ?].
  - split; by eauto.
Qed.

Lemma plot_collected `{Smoother} df selected bundles :
  collect_forecasts df selected = inr bundles →
  ∃ fig, plot_forecasts bundles = inr fig.
Proof.
  intros [_ Hall]%collect_forecasts_inr.
  destruct (proj2 (add_traces_ok bundles)) as [traces Htraces].
  { eapply Forall_impl; [exact Hall|]. simpl.
    intros b (? & (v & -> & _) & _). by eauto. }
  unfold plot_forecasts. rewrite Htraces. by eauto.
Qed.

Lemma show_forecasts_warning `{Smoother}
    (filtered_sales : DataFrame) (selected : list Z) (message : string) :
  show_forecasts filtered_sales selected = inr (Warning message) ↔
  message = "No data available for the selected products."
  ∧ ∀ c, c ∈ selected → product_rows filtered_sales c = [].
Proof.
  unfold show_forecasts.
  destruct (collect_forecasts filtered_sales selected) as [e | bundles] eqn:Hc.
  - split; [done|]. intros [_ Hnone].
    apply collect_forecasts_inl in Hc
      as (before & c & after & -> & _ & Hraise).
    unfold forecast_sales in Hraise.
    rewrite Hnone in Hraise by (apply elem_of_app; right; by left). done.
  - pose proof (collect_forecasts_inr _ _ _ Hc) as [Hcodes _].
    destruct bundles as [|b bundles].
    + split.
      * intros [= <-]. split; [done|]. intros c Hin.
        destruct (decide (product_rows filtered_sales c = [])) as [|Hne];
          [done|].
        assert (c ∈ filter (λ c, product_rows filtered_sales c ≠ []) selected)
          as Hc' by (by apply list_elem_of_filter).
        rewrite <-Hcodes in Hc'. by apply elem_of_nil in Hc'.
      * by intros [-> _].
    + destruct (plot_collected _ _ _ Hc) as [fig ->].
      split; [done|]. intros [_ Hnone]. exfalso.
      assert (b_product_code b
              ∈ filter (λ c, product_rows filtered_sales c ≠ []) selected)
        as Hb by (rewrite <-Hcodes; by left).
      apply list_elem_of_filter in Hb as [Hne Hin]. by apply Hne, Hnone.
Qed.

(** X19. The page shows the warning exactly when no selected code has
    rows in the table; in particular for an empty selection. *)
Theorem warning_iff_no_rows `{Smoother}
    (filtered_sales : DataFrame) (selected : list Z) (message : string) :
  show_forecasts filtered_sales selected = inr (Warning message) ↔
  message = "No data available for the selected products."
  ∧ ∀ c, c ∈ selected → product_rows filtered_sales c = [].
Proof. apply show_forecasts_warning. Qed.

(** X20. Drawing never fails on collected results: when the page raises,
    the exception is the one [forecast_sales] raised while collecting. *)
Theorem page_raises_only_from_forecast `{Smoother}
    (filtered_sales : DataFrame) (selected : list Z) (e : py_error) :
  show_forecasts filtered_sales selected = inl e →
  ∃ e', e = Raised e' ∧ collect_forecasts filtered_sales selected = inl e'.
Proof.
  unfold show_forecasts.
  destruct (collect_forecasts filtered_sales selected) as [e' | bundles] eqn:Hc.
  - intros [= <-]. by exists e'.
  - destruct (plot_collected _ _ _ Hc) as [fig ->]. by destruct bundles.
Qed.

(* ===================================================================== *)
(** * Properties of the product selection                                 *)
(* ===================================================================== *)

Lemma unique_from_spec (seen col : list Z) :
  NoDup (unique_from seen col)
  ∧ ∀ x, x ∈ unique_from seen col ↔ x ∈ col ∧ x ∉ seen.
Proof.
  revert seen. induction col as [|c col IH]; intros seen; simpl.
  - split; [constructor|]. intros x. split; [by intros ?%elem_of_nil|].
    by intros [?%elem_of_nil _].
  - destruct (decide (c ∈ seen)) as [Hc | Hc].
    + destruct (IH seen) as [IHnd IHin]. split; [done|].
      intros x. rewrite IHin, elem_of_cons. split; [by intuition|].
      intros [[-> | ?] ?]; by intuition.
    + destruct (IH (c :: seen)) as [IHnd IHin]. split.
      * constructor; [|done]. rewrite IHin, elem_of_cons. by intuition.
      * intros x. rewrite !elem_of_cons, IHin, elem_of_cons.
        destruct (decide (x = c)) as [-> | Hx]; by intuition.
Qed.

Lemma unique_from_head (seen col : list Z) (c : Z) :
  head col = Some c → c ∉ seen → head (unique_from seen col) = Some c.
Proof.
  destruct col as [|c' col]; [done|]. simpl. intros [= ->] Hc.
  by rewrite decide_False.
Qed.

Lemma product_rows_nonempty df c :
  product_rows df c ≠ [] ↔ c ∈ PRODUCT_CODE <$> df.
Proof.
  unfold product_rows. rewrite list_elem_of_fmap. split.
  - intros Hne. destruct (filter _ df) as [|r rows] eqn:Hf; [done|].
    assert (r ∈ filter (λ r, PRODUCT_CODE r = c) df) as Hr
      by (rewrite Hf; by left).
    apply list_elem_of_filter in Hr as [Hcode Hin]. by exists r.
  - intros (r & -> & Hr) Hnil.
    assert (r ∈ filter (λ r', PRODUCT_CODE r' = PRODUCT_CODE r) df) as Hin
      by (by apply list_elem_of_filter).
    rewrite Hnil in Hin. by apply elem_of_nil in Hin.
Qed.

Lemma product_codes_spec (df : DataFrame) :
  NoDup (product_codes df)
  ∧ (∀ c, c ∈ product_codes df ↔ product_rows df c ≠ [])
  ∧ head (product_codes df) = PRODUCT_CODE <$> head df.
Proof.
  unfold product_codes, unique.
  destruct (unique_from_spec [] (PRODUCT_CODE <$> df)) as [Hnd Hin].
  split_and!; [done | |].
  - intros c. rewrite Hin, product_rows_nonempty.
    split; [by intros [? _] | intros ?; split; [done | apply not_elem_of_nil]].
  - destruct df as [|r df]; [done|]. reflexivity.
Qed.

(** X21. The codes offered for selection are the codes that have rows in
    the table, each once, the code of the first row first. *)
Theorem product_codes_distinct (df : DataFrame) :
  NoDup (product_codes df)
  ∧ (∀ c, c ∈ product_codes df ↔ product_rows df c ≠ [])
  ∧ head (product_codes df) = PRODUCT_CODE <$> head df.
Proof. apply product_codes_spec. Qed.

Lemma default_selection_take codes : default_selection codes = take 3 codes.
Proof.
  unfold default_selection. case_bool_decide; [done|].
  rewrite take_ge; [done | lia].
Qed.

(** X22. The preselected codes are the first three distinct codes of the
    table, or all of them when there are fewer; they are distinct and
    each has rows. *)
Theorem default_selection_has_data (df : DataFrame) :
  let selection := default_selection (product_codes df) in
  selection = take 3 (product_codes df)
  ∧ NoDup selection
  ∧ length selection = (length (product_codes df) `min` 3)%nat
  ∧ ∀ c, c ∈ selection → product_rows df c ≠ [].
Proof.
  intros selection. unfold selection. rewrite default_selection_take.
  destruct (product_codes_spec df) as (Hnd & Hin & _).
  split_and!.
  - done.
  - eapply sublist_NoDup; [exact Hnd | apply sublist_take].
  - rewrite length_take. lia.
  - intros c Hc. apply Hin.
    apply elem_of_take in Hc as (i & Hi & _). by eapply list_elem_of_lookup_2.
Qed.

(** X23. With the preselected codes the page shows the warning only for a
    table without rows. *)
Theorem default_page_warns_only_without_rows `{Smoother}
    (df : DataFrame) (message : string) :
  show_forecasts df (default_selection (product_codes df))
  = inr (Warning message) ↔
  message = "No data available for the selected products." ∧ df = [].
Proof.
  rewrite show_forecasts_warning, default_selection_take.
  destruct (product_codes_spec df) as (_ & Hin & Hhead).
  split; intros [-> Hrest]; (split; [done|]).
  - destruct df as [|r df]; [done|]. exfalso.
    destruct (product_codes (r :: df)) as [|c codes] eqn:Hcodes; [done|].
    simpl in Hhead. injection Hhead as ->.
    apply (proj1 (Hin (PRODUCT_CODE r))); [by left|].
    apply Hrest. simpl. by left.
  - subst df. intros c Hc. done.
Qed.

(* ===================================================================== *)
(** * The further properties on the example tables                        *)
(* ===================================================================== *)

Lemma off_season_months_are_zero_witness :
  (bin (filter (month_isin ["Dec"; "Jan"; "Feb"]) three_month_table) 22803).2
  = 0.
Proof.
  apply (@off_season_months_are_zero last_value_smoother three_month_table
           "Winter" ["Dec"; "Jan"; "Feb"]
           (filter (month_isin ["Dec"; "Jan"; "Feb"]) three_month_table)
           1 12
           (bin (filter (month_isin ["Dec"; "Jan"; "Feb"]) three_month_table)
              <$> seqZ 22800 12)
           (Some (repeat 2 12)) (Some "widget") eq_refl eq_refl eq_refl
           (month_end 22803)).
  - apply list_elem_of_fmap. exists 22803. split; [reflexivity|].
    apply elem_of_seqZ. lia.
  - simpl. rewrite !not_elem_of_cons.
    split_and!; try discriminate. apply not_elem_of_nil.
Defined.

Lemma loaded_quantities_not_negative_witness :
  mkRow 1001 "widget  large" (first_of 1900 Feb) (Some 1900) (Some 7)
    ∈ loaded_quantities_table
  ∧ 0 ≤ 7.
Proof.
  assert (mkRow 1001 "widget  large" (first_of 1900 Feb) (Some 1900) (Some 7)
            ∈ loaded_quantities_table) as Hin by (right; by left).
  split; [exact Hin|].
  apply (@loaded_quantities_not_negative plain_text_ops raw_quantities_sheet
           loaded_quantities_table eq_refl _ 7 Hin).
  reflexivity.
Defined.

Lemma loaded_months_are_in_1900_witness :
  let r := mkRow 1001 "widget  large" (first_of 1900 Feb) (Some 1900) (Some 7) in
  match MONTH r with
  | Some t => ts_year t = 1900 ∧ ts_day t = 1 ∧ YEAR r = Some 1900
  | None => YEAR r = None
  end.
Proof.
  apply (@loaded_months_are_in_1900 plain_text_ops raw_quantities_sheet
           loaded_quantities_table eq_refl).
  right. by left.
Defined.

Lemma loaded_table_never_seasonal_witness :
  (length (bin loaded_quantities_table <$> seqZ 22800 3) ≤ 12)%nat
  ∧ ∃ model,
      @fit last_value_smoother (mkSpec (Some add) None None)
        (series_values (bin loaded_quantities_table <$> seqZ 22800 3))
      = inr model
      ∧ Some (repeat 0 12) = Some (@forecast last_value_smoother model 12).
Proof.
  apply (@loaded_table_never_seasonal plain_text_ops last_value_smoother
           raw_quantities_sheet loaded_quantities_table "All"
           loaded_quantities_table 1001 12 _ _ (Some "widget  large"));
    reflexivity.
Defined.

Lemma loaded_history_not_negative_witness :
  0 ≤ (bin loaded_quantities_table 22801).2.
Proof.
  assert (quantities_exact (product_rows loaded_quantities_table 1001))
    as Hexact by (vm_compute; reflexivity).
  apply (@loaded_history_not_negative plain_text_ops last_value_smoother
           raw_quantities_sheet loaded_quantities_table "All"
           loaded_quantities_table 1001 12
           (bin loaded_quantities_table <$> seqZ 22800 3)
           (Some (repeat 0 12)) (Some "widget  large")
           eq_refl eq_refl Hexact eq_refl (month_end 22801)).
  apply list_elem_of_fmap. exists 22801. split; [reflexivity|].
  apply elem_of_seqZ. lia.
Defined.

Lemma series_ignores_row_order_witness :
  ∃ descr',
    @forecast_sales last_value_smoother (reverse blank_first_table) 1 12
    = inr (Some (bin blank_first_table <$> seqZ 22800 4),
           Some (repeat 3 12), descr').
Proof.
  apply (@series_ignores_row_order last_value_smoother blank_first_table
           (reverse blank_first_table) 1 12 _ _ (Some "")).
  - apply perm_swap.
  - reflexivity.
Defined.

Lemma collected_bundles_follow_selection_witness :
  b_product_code <$> blank_first_bundles
  = filter (λ c, product_rows blank_first_table c ≠ []) [5; 1]
  ∧ Forall (λ b, b_historical_data b ≠ []
                 ∧ ∃ v, b_forecast b = Some v ∧ length v = 12%nat)
           blank_first_bundles.
Proof.
  apply (@collected_bundles_follow_selection last_value_smoother
           blank_first_table [5; 1]).
  reflexivity.
Defined.

Lemma figure_has_two_traces_per_result_witness :
  length (fig_data blank_first_figure)
  = (2 * length blank_first_bundles)%nat
  ∧ tr_name <$> fig_data blank_first_figure
    = flat_map (λ b, [format_description (b_product_description b)
                        +:+ " (Historical)";
                      format_description (b_product_description b)
                        +:+ " (Forecast)"]) blank_first_bundles
  ∧ Forall (λ tr, length (tr_x tr) = ydata_length (tr_y tr)
                  ∧ tr_mode tr = "lines") (fig_data blank_first_figure).
Proof.
  apply (@figure_has_two_traces_per_result last_value_smoother).
  vm_compute. reflexivity.
Defined.

Lemma page_raises_only_from_forecast_witness :
  ∃ e', Raised (FitError "optimizer failure") = Raised e'
        ∧ @collect_forecasts failing_smoother single_record_table [1] = inl e'.
Proof.
  apply (@page_raises_only_from_forecast failing_smoother).
  reflexivity.
Defined.
